(** * Lane following with obstacle stop: the per-frame control function

    A shallow embedding of the [execute] callback of the two JetBot notebooks
    of the repository (the live demo and [final_demo.ipynb]) together with
    the notebook cells that subscribe it to the camera and shut the robot
    down.

    Python floats are idealised as real numbers: rounding, infinities and
    NaN are outside the model, so "finite input" reads "any real".  The two
    neural networks are black boxes; a camera frame is represented by what
    they return on it. *)

From Stdlib Require Import Reals Lra Lia ZArith List Bool.
Import ListNotations.
Open Scope R_scope.

(** ** Python and NumPy primitives *)

(** Python's two-argument [min]: the first of the smallest items. *)
Definition py_min (a b : R) : R := if Rlt_dec b a then b else a.

(** Python's two-argument [max]: the first of the largest items. *)
Definition py_max (a b : R) : R := if Rgt_dec b a then b else a.

(** [np.arctan2(x1, x2)]: the angle of the point with ordinate [x1] and
    abscissa [x2], in (-PI, PI].  The quotient is only formed when
    [x2] is non-zero. *)
Definition arctan2 (x1 x2 : R) : R :=
  if Rlt_dec 0 x2 then atan (x1 / x2)
  else if Rlt_dec x2 0 then
    if Rle_dec 0 x1 then atan (x1 / x2) + PI else atan (x1 / x2) - PI
  else
    if Rlt_dec 0 x1 then PI / 2
    else if Rlt_dec x1 0 then - PI / 2
    else 0.

(** ** Widgets (ipywidgets) *)

(** A [FloatSlider]: a bounded float trait. *)
Record FloatSlider : Type := mkFloatSlider {
  slider_min : R;
  slider_max : R;
  slider_value : R
}.

(** The validator ipywidgets runs on every assignment to the [value] of a
    bounded float ("cap and floor value"): a value outside [min, max] is
    replaced by [min(max(value, min), max)]. *)
Definition validate_value (s : FloatSlider) (value : R) : R :=
  if Rgt_dec (slider_min s) value
  then py_min (py_max value (slider_min s)) (slider_max s)
  else if Rlt_dec (slider_max s) value
  then py_min (py_max value (slider_min s)) (slider_max s)
  else value.

(** [s.value = v]. *)
Definition set_value (s : FloatSlider) (v : R) : FloatSlider :=
  {| slider_min := slider_min s;
     slider_max := slider_max s;
     slider_value := validate_value s v |}.

(** The sliders the notebooks create, by the name of the global that holds
    them. *)
Inductive Slider : Type :=
| speed_gain_slider
| steering_gain_slider
| steering_dgain_slider
| steering_bias_slider
| blocked_slider
| x_slider
| y_slider
| steering_slider
| speed_slider.

Definition Slider_eq_dec (a b : Slider) : {a = b} + {a <> b}.
Proof. decide equality. Defined.

(** The [min] and [max] each slider is constructed with (the same in both
    notebooks). *)
Definition bounds (k : Slider) : R * R :=
  match k with
  | speed_gain_slider => (0.0, 1.0)
  | steering_gain_slider => (0.0, 1.0)
  | steering_dgain_slider => (0.0, 0.5)
  | steering_bias_slider => (-0.3, 0.3)
  | blocked_slider => (0.0, 1.0)
  | x_slider => (-1.0, 1.0)
  | y_slider => (0, 1.0)
  | steering_slider => (-1.0, 1.0)
  | speed_slider => (0, 1.0)
  end.

(** ** The robot (jetbot) *)

(** What the notebook asks of the motor driver. *)
Inductive RobotCall : Type :=
| SetLeft (v : R)
| SetRight (v : R)
| Stop.

(** Modelled from the spec: the jetbot [Robot] class is a vendor library that
    is not part of the repository.  The motor actuator holds one power level
    per wheel and offers a [stop()] call, which is the full stop
    [MotorCommand(0.0, 0.0)].  [calls] logs what was asked of it, oldest
    first. *)
Record Robot : Type := mkRobot {
  robot_left_motor : R;      (* robot.left_motor.value *)
  robot_right_motor : R;     (* robot.right_motor.value *)
  calls : list RobotCall
}.

Module Robot.

(** [robot.left_motor.value = v] *)
Definition set_left_motor (v : R) (r : Robot) : Robot :=
  {| robot_left_motor := v;
     robot_right_motor := robot_right_motor r;
     calls := calls r ++ [SetLeft v] |}.

(** [robot.right_motor.value = v] *)
Definition set_right_motor (v : R) (r : Robot) : Robot :=
  {| robot_left_motor := robot_left_motor r;
     robot_right_motor := v;
     calls := calls r ++ [SetRight v] |}.

(** [robot.stop()] *)
Definition stop (r : Robot) : Robot :=
  {| robot_left_motor := 0;
     robot_right_motor := 0;
     calls := calls r ++ [Stop] |}.

End Robot.

(** ** The notebook's globals *)

Record World : Type := mkWorld {
  angle : R;
  angle_last : R;
  sliders : Slider -> FloatSlider;
  left_motor : R;            (* FloatText 'left motor' *)
  right_motor : R;           (* FloatText 'right motor' *)
  robot : Robot
}.

(** The outputs of the two networks on one camera frame: [xy] of the
    steering model and the first softmax component of the collision model. *)
Record Observation : Type := mkObservation {
  xy0 : R;
  xy1 : R;
  prob_blocked : R
}.

(** ** A state monad over the globals *)

Definition M (A : Type) : Type := World -> A * World.

Definition ret {A : Type} (a : A) : M A := fun w => (a, w).

Definition bind {A B : Type} (c : M A) (k : A -> M B) : M B :=
  fun w => let (a, w') := c w in k a w'.

Declare Scope py_scope.
Delimit Scope py_scope with py.
Notation "x <- c ;; k" := (bind c (fun x => k))
  (at level 61, c at next level, right associativity) : py_scope.
Notation "c ;; k" := (bind c (fun _ => k))
  (at level 61, right associativity) : py_scope.

Definition exec {A : Type} (c : M A) (w : World) : World := snd (c w).

(** [k.value] *)
Definition read (k : Slider) : M R :=
  fun w => (slider_value (sliders w k), w).

(** [k.value = v] *)
Definition write (k : Slider) (v : R) : M unit :=
  fun w =>
    (tt, {| angle := angle w;
            angle_last := angle_last w;
            sliders := fun k' =>
              if Slider_eq_dec k k' then set_value (sliders w k) v
              else sliders w k';
            left_motor := left_motor w;
            right_motor := right_motor w;
            robot := robot w |}).

Definition get_angle_last : M R := fun w => (angle_last w, w).

Definition set_angle (a : R) : M unit :=
  fun w =>
    (tt, {| angle := a;
            angle_last := angle_last w;
            sliders := sliders w;
            left_motor := left_motor w;
            right_motor := right_motor w;
            robot := robot w |}).

Definition set_angle_last (a : R) : M unit :=
  fun w =>
    (tt, {| angle := angle w;
            angle_last := a;
            sliders := sliders w;
            left_motor := left_motor w;
            right_motor := right_motor w;
            robot := robot w |}).

(** [left_motor.value = v] on the [FloatText] display. *)
Definition set_left_motor_text (v : R) : M unit :=
  fun w =>
    (tt, {| angle := angle w;
            angle_last := angle_last w;
            sliders := sliders w;
            left_motor := v;
            right_motor := right_motor w;
            robot := robot w |}).

(** [right_motor.value = v] on the [FloatText] display. *)
Definition set_right_motor_text (v : R) : M unit :=
  fun w =>
    (tt, {| angle := angle w;
            angle_last := angle_last w;
            sliders := sliders w;
            left_motor := left_motor w;
            right_motor := v;
            robot := robot w |}).

Definition on_robot (f : Robot -> Robot) : M unit :=
  fun w =>
    (tt, {| angle := angle w;
            angle_last := angle_last w;
            sliders := sliders w;
            left_motor := left_motor w;
            right_motor := right_motor w;
            robot := f (robot w) |}).

Local Open Scope py_scope.

(** ** The per-frame callback, live demo notebook

    [execute_with threshold] is the body of [execute] with the literal of
    its [if prob_blocked > 0.4] test taken as an argument, so that the two
    notebooks can be compared at one threshold; [execute] is the function of
    the notebook.  The closing [time.sleep(0.001)] only delays the return
    and has no counterpart here. *)
Module LiveDemo.

Definition block_threshold : R := 0.4.

Definition execute_with (threshold : R) (change : Observation) : M unit :=
  write blocked_slider (prob_blocked change) ;;
  let x := xy0 change in
  let y := (0.5 - xy1 change) / 2.0 in
  write x_slider x ;;
  write y_slider y ;;
  speed_gain <- read speed_gain_slider ;;
  write speed_slider speed_gain ;;
  let angle := arctan2 x y in
  set_angle angle ;;
  steering_gain <- read steering_gain_slider ;;
  angle_last <- get_angle_last ;;
  steering_dgain <- read steering_dgain_slider ;;
  let pid := angle * steering_gain + (angle - angle_last) * steering_dgain in
  set_angle_last angle ;;
  steering_bias <- read steering_bias_slider ;;
  write steering_slider (pid + steering_bias) ;;
  speed <- read speed_slider ;;
  steering <- read steering_slider ;;
  let left_motor_value := py_max (py_min (speed + steering) 1.0) 0.0 in
  let right_motor_value := py_max (py_min (speed - steering) 1.0) 0.0 in
  set_left_motor_text left_motor_value ;;
  set_right_motor_text right_motor_value ;;
  if Rgt_dec (prob_blocked change) threshold
  then on_robot Robot.stop
  else
    on_robot (Robot.set_left_motor left_motor_value) ;;
    on_robot (Robot.set_right_motor right_motor_value).

Definition execute (change : Observation) : M unit :=
  execute_with block_threshold change.

End LiveDemo.

(** ** The per-frame callback, [final_demo.ipynb]

    The same function without the two [FloatText] displays, and with 0.7 as
    the literal of the test. *)
Module FinalDemo.

Definition block_threshold : R := 0.7.

Definition execute_with (threshold : R) (change : Observation) : M unit :=
  write blocked_slider (prob_blocked change) ;;
  let x := xy0 change in
  let y := (0.5 - xy1 change) / 2.0 in
  write x_slider x ;;
  write y_slider y ;;
  speed_gain <- read speed_gain_slider ;;
  write speed_slider speed_gain ;;
  let angle := arctan2 x y in
  set_angle angle ;;
  steering_gain <- read steering_gain_slider ;;
  angle_last <- get_angle_last ;;
  steering_dgain <- read steering_dgain_slider ;;
  let pid := angle * steering_gain + (angle - angle_last) * steering_dgain in
  set_angle_last angle ;;
  steering_bias <- read steering_bias_slider ;;
  write steering_slider (pid + steering_bias) ;;
  speed <- read speed_slider ;;
  steering <- read steering_slider ;;
  let left_motor_value := py_max (py_min (speed + steering) 1.0) 0.0 in
  let right_motor_value := py_max (py_min (speed - steering) 1.0) 0.0 in
  if Rgt_dec (prob_blocked change) threshold
  then on_robot Robot.stop
  else
    on_robot (Robot.set_left_motor left_motor_value) ;;
    on_robot (Robot.set_right_motor right_motor_value).

Definition execute (change : Observation) : M unit :=
  execute_with block_threshold change.

End FinalDemo.

(** ** What a frame's processing leaves behind *)

(** The power levels the motors are left at: the [MotorCommand]. *)
Definition motor_command (w : World) : R * R :=
  (robot_left_motor (robot w), robot_right_motor (robot w)).

(** The value of the local [y] of [execute]. *)
Definition target_y (change : Observation) : R := (0.5 - xy1 change) / 2.0.

(** The value of the local [pid] of [execute], started in [w]. *)
Definition pid_of (change : Observation) (w : World) : R :=
  let angle := arctan2 (xy0 change) (target_y change) in
  angle * slider_value (sliders w steering_gain_slider)
  + (angle - angle_last w) * slider_value (sliders w steering_dgain_slider).

(** What [execute], started in [w], reads back from [speed_slider] and from
    [steering_slider]. *)
Definition speed_of (w : World) : R :=
  validate_value (sliders w speed_slider)
    (slider_value (sliders w speed_gain_slider)).

Definition steering_of (change : Observation) (w : World) : R :=
  validate_value (sliders w steering_slider)
    (pid_of change w + slider_value (sliders w steering_bias_slider)).

(** The values of the locals [left_motor_value] and [right_motor_value]. *)
Definition left_motor_value_of (change : Observation) (w : World) : R :=
  py_max (py_min (speed_of w + steering_of change w) 1.0) 0.0.

Definition right_motor_value_of (change : Observation) (w : World) : R :=
  py_max (py_min (speed_of w - steering_of change w) 1.0) 0.0.

(** The robot after one call started in [w], by the branch taken. *)
Definition robot_after (threshold : R) (change : Observation) (w : World)
  : Robot :=
  if Rgt_dec (prob_blocked change) threshold
  then Robot.stop (robot w)
  else Robot.set_right_motor (right_motor_value_of change w)
         (Robot.set_left_motor (left_motor_value_of change w) (robot w)).

(** ** The configuration the sliders hold

    A slider keeps the [min] and [max] it was constructed with and a value
    between them; every world the notebooks can reach is of this kind. *)
Definition well_formed (w : World) : Prop :=
  forall k : Slider,
    slider_min (sliders w k) = fst (bounds k) /\
    slider_max (sliders w k) = snd (bounds k) /\
    slider_min (sliders w k) <= slider_value (sliders w k)
      <= slider_max (sliders w k).

(** The [ControllerConfig] of the specification, as the sliders hold it. *)
Definition speed_gain (w : World) : R :=
  slider_value (sliders w speed_gain_slider).
Definition steering_gain (w : World) : R :=
  slider_value (sliders w steering_gain_slider).
Definition steering_kd (w : World) : R :=
  slider_value (sliders w steering_dgain_slider).
Definition steering_bias (w : World) : R :=
  slider_value (sliders w steering_bias_slider).

(** The sliders after one call started in [w]: five of them are assigned,
    each through its validator. *)
Definition sliders_after (change : Observation) (w : World) (k : Slider)
  : FloatSlider :=
  match k with
  | blocked_slider =>
      set_value (sliders w blocked_slider) (prob_blocked change)
  | x_slider => set_value (sliders w x_slider) (xy0 change)
  | y_slider => set_value (sliders w y_slider) (target_y change)
  | speed_slider => set_value (sliders w speed_slider) (speed_gain w)
  | steering_slider =>
      set_value (sliders w steering_slider)
        (pid_of change w + steering_bias w)
  | _ => sliders w k
  end.

(** The globals after the cells that create the widgets and the robot have
    run: every slider at [initial k], both angles at 0.0. *)
Definition world_of (initial : Slider -> R) : World :=
  {| angle := 0.0;
     angle_last := 0.0;
     sliders := fun k =>
       {| slider_min := fst (bounds k);
          slider_max := snd (bounds k);
          slider_value := initial k |};
     left_motor := 0;
     right_motor := 0;
     robot := {| robot_left_motor := 0; robot_right_motor := 0; calls := [] |}
  |}.

(** The [value] each notebook constructs its sliders with (0.0 where none is
    given). *)
Definition live_initial (k : Slider) : R :=
  match k with
  | speed_gain_slider => 0.28
  | steering_gain_slider => 0.07
  | _ => 0.0
  end.

Definition final_initial (k : Slider) : R :=
  match k with
  | steering_gain_slider => 0.2
  | _ => 0.0
  end.

(** ** The specification's vocabulary *)

(** [clamp(v, lo, hi)] of the specification. *)
Definition clamp (v lo hi : R) : R := Rmax lo (Rmin v hi).

(** The steering command of the specification's steps 3 and 4. *)
Definition steering_law (a previous_angle gain kd bias : R) : R :=
  a * gain + (a - previous_angle) * kd + bias.

(** The last thing asked of the robot was [stop()]. *)
Definition stopped (w : World) : Prop :=
  last (calls (robot w)) (SetLeft 0) = Stop.

(** The override threshold is tunable: for one and the same blocked
    probability, some setting of the notebook's globals makes the callback
    stop the robot and some other setting makes it drive. *)
Definition threshold_tunable (callback : Observation -> M unit) : Prop :=
  exists (c1 c2 : Observation) (w1 w2 : World),
    prob_blocked c1 = prob_blocked c2 /\
    stopped (exec (callback c1) w1) /\
    ~ stopped (exec (callback c2) w2).

(** ** The notebook around the callback

    The camera delivers frames to the callbacks subscribed to its [value]
    trait; a callback runs to completion before the next event. *)
Record Notebook : Type := mkNotebook {
  world : World;
  observing : bool           (* [execute] is subscribed to the camera *)
}.

Inductive Event : Type :=
| Observe                    (* camera.observe(execute, names='value') *)
| Frame (change : Observation)   (* the camera has a new frame *)
| Tune (k : Slider) (v : R)  (* the user moves a slider *)
| Shutdown.                  (* the cell that stops the robot *)

(** The last cell, [camera.unobserve(execute, names='value')], a sleep and
    [robot.stop()], run while no callback is in flight; the cell beside a
    running callback is [shutdown_cell] below. *)
Definition shutdown (nb : Notebook) : Notebook :=
  {| world := exec (on_robot Robot.stop) (world nb);
     observing := false |}.

Definition step (callback : Observation -> M unit) (nb : Notebook)
  (e : Event) : Notebook :=
  match e with
  | Observe => {| world := world nb; observing := true |}
  | Frame change =>
      if observing nb
      then {| world := exec (callback change) (world nb);
              observing := true |}
      else nb
  | Tune k v => {| world := exec (write k v) (world nb);
                   observing := observing nb |}
  | Shutdown => shutdown nb
  end.

Definition run (callback : Observation -> M unit) (nb : Notebook)
  (events : list Event) : Notebook :=
  fold_left (step callback) events nb.

(** The frame of the specification's worked scenario: x = 0.5,
    y_raw = 0.3, an unobstructed path. *)
Definition scenario_frame : Observation :=
  {| xy0 := 0.5; xy1 := 0.3; prob_blocked := 0.1 |}.

(** The live demo before its callback is subscribed. *)
Definition fresh_live_notebook : Notebook :=
  {| world := world_of live_initial; observing := false |}.

(** ** Further vocabulary for one call *)

(** The frame with its lateral offset mirrored. *)
Definition mirror (change : Observation) : Observation :=
  {| xy0 := - xy0 change;
     xy1 := xy1 change;
     prob_blocked := prob_blocked change |}.

(** The same frame with another obstacle probability. *)
Definition with_prob_blocked (p : R) (change : Observation) : Observation :=
  {| xy0 := xy0 change; xy1 := xy1 change; prob_blocked := p |}.

(** The steering the drive law of a call started in [w] works with, before
    the steering slider caps it. *)
Definition steering_before_cap (change : Observation) (w : World) : R :=
  steering_law (arctan2 (xy0 change) (target_y change)) (angle_last w)
    (steering_gain w) (steering_kd w) (steering_bias w).

(** What the two callbacks have in common: the robot, the previous angle
    and the sliders a call leaves, for a callback with the given threshold. *)
Definition behaves (threshold : R) (callback : Observation -> M unit)
  : Prop :=
  forall change w,
    robot (exec (callback change) w) = robot_after threshold change w /\
    angle_last (exec (callback change) w)
      = arctan2 (xy0 change) (target_y change) /\
    forall k, sliders (exec (callback change) w) k = sliders_after change w k.

(** A world with the steering gain at its maximum. *)
Definition full_gain_initial (k : Slider) : R :=
  match k with
  | speed_gain_slider => 0.28
  | steering_gain_slider => 1.0
  | _ => 0.0
  end.

(** A frame whose target is abeam to the right. *)
Definition abeam_frame : Observation :=
  {| xy0 := 1.0; xy1 := 0.5; prob_blocked := 0.1 |}.

(** ** The overlay of the live demo ([display_xy]) *)






(** ** The training loop of the collision model ([train_model])

    The network, the optimizer and the data loaders are black boxes: an
    epoch is represented by the labels and the predicted classes
    ([outputs.argmax(1)]) of the batches its two loaders yield. *)
Module TrainModel.

Definition NUM_EPOCHS : nat := 30.

(** One batch: the label and the predicted class of each sample. *)
Definition Batch : Type := list (Z * Z).

Record Epoch : Type := mkEpoch {
  train_loader : list Batch;
  test_loader : list Batch
}.

(** [float(torch.sum(torch.abs(labels - outputs.argmax(1))))] *)
Definition batch_errors (b : Batch) : R :=
  IZR (fold_right Z.add 0%Z (map (fun s => Z.abs (fst s - snd s)) b)).

(** The error count a loop over a loader accumulates from 0.0. *)
Definition error_count (loader : list Batch) : R :=
  fold_left (fun count b => count + batch_errors b) loader 0.0.

(** Python's float division, which raises on a zero divisor. *)
Definition py_div (a b : R) : option R :=
  if Req_dec_T b 0 then None else Some (a / b).

(** The globals of the training cell; [best_model] is the epoch whose
    state dict [BEST_MODEL_PATH] holds, if the file was written. *)
Record Training : Type := mkTraining {
  best_accuracy : R;
  accuracy_train : list R;
  accuracy_test : list R;
  best_model : option nat
}.

Definition initial : Training :=
  {| best_accuracy := 0.0;
     accuracy_train := [];
     accuracy_test := [];
     best_model := None |}.

(** The body of [for epoch in range(NUM_EPOCHS)], after the two loops over
    the loaders; [None] is the [ZeroDivisionError] of an empty dataset. *)
Definition run_epoch (len_train len_test : nat) (outcome : nat -> Epoch)
  (st : Training) (epoch : nat) : option Training :=
  let train_error_count := error_count (train_loader (outcome epoch)) in
  let test_error_count := error_count (test_loader (outcome epoch)) in
  match py_div train_error_count (INR len_train) with
  | None => None
  | Some train_ratio =>
      let train_accuracy := 1.0 - train_ratio in
      match py_div test_error_count (INR len_test) with
      | None => None
      | Some test_ratio =>
          let test_accuracy := 1.0 - test_ratio in
          Some
            {| best_accuracy :=
                 if Rgt_dec test_accuracy (best_accuracy st)
                 then test_accuracy else best_accuracy st;
               accuracy_train := accuracy_train st ++ [train_accuracy];
               accuracy_test := accuracy_test st ++ [test_accuracy];
               best_model :=
                 if Rgt_dec test_accuracy (best_accuracy st)
                 then Some epoch else best_model st |}
      end
  end.

Fixpoint train_loop (len_train len_test : nat) (outcome : nat -> Epoch)
  (epochs : list nat) (st : Training) : option Training :=
  match epochs with
  | [] => Some st
  | epoch :: rest =>
      match run_epoch len_train len_test outcome st epoch with
      | None => None
      | Some st' => train_loop len_train len_test outcome rest st'
      end
  end.

(** The training cell, for datasets of [len_train] and [len_test]
    images. *)
Definition train (len_train len_test : nat) (outcome : nat -> Epoch)
  : option Training :=
  train_loop len_train len_test outcome (seq 0 NUM_EPOCHS) initial.

(** The test accuracy the cell computes in an epoch. *)
Definition test_accuracy (len_test : nat) (outcome : nat -> Epoch)
  (epoch : nat) : R :=
  1.0 - error_count (test_loader (outcome epoch)) / INR len_test.

Definition train_accuracy (len_train : nat) (outcome : nat -> Epoch)
  (epoch : nat) : R :=
  1.0 - error_count (train_loader (outcome epoch)) / INR len_train.

(** The samples of a loader, and the ones classified correctly. *)
Definition samples (loader : list Batch) : list (Z * Z) := concat loader.

Definition correct (s : Z * Z) : bool := Z.eqb (fst s) (snd s).

(** Labels and predictions are the classes 0 (blocked) and 1 (free). *)
Definition binary (s : Z * Z) : Prop :=
  (fst s = 0 \/ fst s = 1)%Z /\ (snd s = 0 \/ snd s = 1)%Z.

(** After the epochs before [k]: the best accuracy bounds the test
    accuracy of each of them, and the saved model, if any, is the first
    epoch that reached it. *)
Definition best_so_far (acc : nat -> R) (k : nat) (st : Training) : Prop :=
  (forall e, (e < k)%nat -> acc e <= best_accuracy st) /\
  match best_model st with
  | None => best_accuracy st = 0
  | Some e0 =>
      (e0 < k)%nat /\ acc e0 = best_accuracy st /\ 0 < acc e0 /\
      forall e, (e < e0)%nat -> acc e < acc e0
  end.

(** An epoch in which the model gets [k] of ten test images wrong, in
    batches of four. *)
Definition sample_outcome (k : nat) : Epoch :=
  let results :=
    repeat (1%Z, 0%Z) k ++ repeat (1%Z, 1%Z) (10 - k) in
  {| train_loader := [firstn 4 results];
     test_loader :=
       [firstn 4 results; firstn 4 (skipn 4 results); skipn 8 results] |}.

End TrainModel.

(** ** Preprocessing of a camera frame

    A camera frame is a height x width array of pixels with three 8-bit
    channels, in the order the camera delivers them (blue, green, red); a
    tensor is a list of channel planes. *)
Module Preprocess.

Definition Pixel : Type := (Z * Z * Z)%type.
Definition Image : Type := list (list Pixel).
Definition Tensor : Type := list (list (list R)).

Definition channel0 (px : Pixel) : Z := fst (fst px).
Definition channel1 (px : Pixel) : Z := snd (fst px).
Definition channel2 (px : Pixel) : Z := snd px.

(** [cv2.cvtColor(x, cv2.COLOR_BGR2RGB)]: the first and the third channel
    change places. *)
Definition cvtColor_BGR2RGB (x : Image) : Image :=
  map (map (fun px => (channel2 px, channel1 px, channel0 px))) x.

(** [x.transpose((2, 0, 1))]: from height x width x channel to
    channel x height x width. *)
Definition transpose_2_0_1 (x : Image) : list (list (list Z)) :=
  [map (map channel0) x; map (map channel1) x; map (map channel2) x].

(** [torch.from_numpy(x).float()] *)
Definition float (x : list (list (list Z))) : Tensor :=
  map (map (map IZR)) x.

(** [transforms.functional.to_tensor] on an 8-bit image: channel planes
    first, values scaled to [0, 1]. *)
Definition to_tensor (image : Image) : Tensor :=
  map (map (map (fun v => IZR v / 255))) (transpose_2_0_1 image).

(** [torchvision.transforms.Normalize(mean, std)], also written
    [image.sub_(mean[:, None, None]).div_(std[:, None, None])]: channel by
    channel, subtract the mean and divide by the deviation. *)
Fixpoint normalize (mean std : list R) (x : Tensor) : Tensor :=
  match mean, std, x with
  | m :: mean', s :: std', plane :: x' =>
      map (map (fun v => (v - m) / s)) plane :: normalize mean' std' x'
  | _, _, _ => []
  end.

Definition mean : list R := [0.485; 0.456; 0.406].
Definition std : list R := [0.229; 0.224; 0.225].

(** [255.0 * np.array([...])] *)
Definition mean2 : list R := map (fun m => 255.0 * m) mean.
Definition stdev2 : list R := map (fun s => 255.0 * s) std.

(** [preprocess_steering] of the live demo, [preprocess] of the final
    demo; the result is a batch of one tensor. *)
Definition preprocess_steering (image : Image) : list Tensor :=
  [normalize mean std (to_tensor image)].

(** [preprocess_collision] of the live demo, [preprocess_blocked] of the
    final demo. *)
Definition preprocess_collision (camera_value : Image) : list Tensor :=
  let x := camera_value in
  let x := cvtColor_BGR2RGB x in
  let x := transpose_2_0_1 x in
  let x := float x in
  let x := normalize mean2 stdev2 x in
  [x].

(** The last two transforms the training notebook attaches to its
    dataset: [ToTensor()] and
    [Normalize([0.485, 0.456, 0.406], [0.229, 0.224, 0.225])]. *)
Definition training_transform (image : Image) : Tensor :=
  normalize [0.485; 0.456; 0.406] [0.229; 0.224; 0.225] (to_tensor image).

End Preprocess.

(** ** The shutdown cell beside the camera thread

    The camera delivers its frames from a thread of its own, so a callback
    can be running when a cell is run.  A callback spends its time in the
    two networks, which are its first statements; what it does to the
    globals and to the robot follows in one go when they return.  Times are
    in seconds. *)
Record Threaded : Type := mkThreaded {
  globals : World;
  subscribed : bool;         (* [execute] is subscribed to the camera *)
  in_flight : option (Observation * R)
                             (* the frame a running callback works on, and
                                the time it still needs *)
}.

(** [d] seconds pass: a running callback that needs no more than that
    returns, and leaves what [execute] leaves. *)
Definition elapse (callback : Observation -> M unit) (d : R) (s : Threaded)
  : Threaded :=
  match in_flight s with
  | Some (change, remaining) =>
      if Rle_dec remaining d
      then {| globals := exec (callback change) (globals s);
              subscribed := subscribed s;
              in_flight := None |}
      else {| globals := globals s;
              subscribed := subscribed s;
              in_flight := Some (change, remaining - d) |}
  | None => s
  end.

(** [camera.unobserve(execute, names='value')]: no further frame reaches the
    callback; one that is running goes on. *)
Definition unobserve (s : Threaded) : Threaded :=
  {| globals := globals s; subscribed := false; in_flight := in_flight s |}.

(** [robot.stop()], from the cell. *)
Definition stop_robot (s : Threaded) : Threaded :=
  {| globals := exec (on_robot Robot.stop) (globals s);
     subscribed := subscribed s;
     in_flight := in_flight s |}.

(** The last cell: [camera.unobserve(execute, names='value')],
    [time.sleep(0.1)], [robot.stop()]. *)
Definition shutdown_cell (callback : Observation -> M unit) (s : Threaded)
  : Threaded :=
  stop_robot (elapse callback 0.1 (unobserve s)).

(** What can happen once the cell has run: time passes, the camera has a
    new frame (whose processing would take [duration]), a slider is
    moved. *)
Inductive Later : Type :=
| Wait (d : R)
| Arrive (change : Observation) (duration : R)
| Move (k : Slider) (v : R).

Definition later (callback : Observation -> M unit) (s : Threaded)
  (e : Later) : Threaded :=
  match e with
  | Wait d => elapse callback d s
  | Arrive change duration =>
      if subscribed s
      then match in_flight s with
           | None => {| globals := globals s;
                        subscribed := subscribed s;
                        in_flight := Some (change, duration) |}
           | Some _ => s
           end
      else s
  | Move k v => {| globals := exec (write k v) (globals s);
                   subscribed := subscribed s;
                   in_flight := in_flight s |}
  end.

(** The live demo at work on the scenario frame, [remaining] seconds
    before the two networks return. *)
Definition busy_live_demo (remaining : R) : Threaded :=
  {| globals := world_of live_initial;
     subscribed := true;
     in_flight := Some (scenario_frame, remaining) |}.

(** ** Characterisation of one call

    Each global that matters is read off the world [execute] leaves. *)

Ltac by_execution w threshold change :=
  destruct w;
  unfold LiveDemo.execute_with, FinalDemo.execute_with, robot_after;
  destruct (Rgt_dec (prob_blocked change) threshold); reflexivity.

Lemma live_robot threshold change w :
  robot (exec (LiveDemo.execute_with threshold change) w)
  = robot_after threshold change w.
Proof. by_execution w threshold change. Qed.

Lemma final_robot threshold change w :
  robot (exec (FinalDemo.execute_with threshold change) w)
  = robot_after threshold change w.
Proof. by_execution w threshold change. Qed.

Lemma live_angle threshold change w :
  angle (exec (LiveDemo.execute_with threshold change) w)
  = arctan2 (xy0 change) (target_y change).
Proof. by_execution w threshold change. Qed.

Lemma final_angle threshold change w :
  angle (exec (FinalDemo.execute_with threshold change) w)
  = arctan2 (xy0 change) (target_y change).
Proof. by_execution w threshold change. Qed.

Lemma live_angle_last threshold change w :
  angle_last (exec (LiveDemo.execute_with threshold change) w)
  = arctan2 (xy0 change) (target_y change).
Proof. by_execution w threshold change. Qed.

Lemma final_angle_last threshold change w :
  angle_last (exec (FinalDemo.execute_with threshold change) w)
  = arctan2 (xy0 change) (target_y change).
Proof. by_execution w threshold change. Qed.

Lemma live_sliders threshold change w k :
  sliders (exec (LiveDemo.execute_with threshold change) w) k
  = sliders_after change w k.
Proof. destruct k; by_execution w threshold change. Qed.

Lemma final_sliders threshold change w k :
  sliders (exec (FinalDemo.execute_with threshold change) w) k
  = sliders_after change w k.
Proof. destruct k; by_execution w threshold change. Qed.

(** ** Python's [min] and [max], and the clamp *)

(** Case analysis on every comparison of a goal built from [Rmin] and
    [Rmax], innermost first. *)
Ltac split_min_max :=
  unfold Rmax, Rmin;
  repeat match goal with
         | |- context [Rle_dec ?a ?b] =>
             lazymatch a with
             | context [Rle_dec] => fail
             | _ => lazymatch b with
                    | context [Rle_dec] => fail
                    | _ => destruct (Rle_dec a b)
                    end
             end
         end.

Lemma py_min_Rmin a b : py_min a b = Rmin a b.
Proof.
  unfold py_min, Rmin.
  destruct (Rlt_dec b a), (Rle_dec a b); lra.
Qed.

Lemma py_max_Rmax a b : py_max a b = Rmax a b.
Proof.
  unfold py_max, Rmax.
  destruct (Rgt_dec b a), (Rle_dec a b); lra.
Qed.

Lemma py_clamp_is_clamp v : py_max (py_min v 1.0) 0.0 = clamp v 0.0 1.0.
Proof.
  rewrite py_max_Rmax, py_min_Rmin. unfold clamp. apply Rmax_comm.
Qed.

Lemma clamp_range v lo hi : lo <= hi -> lo <= clamp v lo hi <= hi.
Proof.
  intros Hle. unfold clamp, Rmax, Rmin.
  destruct (Rle_dec v hi); destruct (Rle_dec lo _); lra.
Qed.

Lemma py_clamp_range v : 0 <= py_max (py_min v 1.0) 0.0 <= 1.
Proof.
  rewrite py_clamp_is_clamp.
  pose proof (clamp_range v 0.0 1.0). lra.
Qed.

(** ** The slider validator *)

Lemma validate_value_clamp s v :
  slider_min s <= slider_max s ->
  validate_value s v = clamp v (slider_min s) (slider_max s).
Proof.
  intros Hle. unfold validate_value.
  rewrite py_min_Rmin, py_max_Rmax. unfold clamp, Rmax, Rmin.
  destruct (Rgt_dec (slider_min s) v); destruct (Rlt_dec (slider_max s) v);
    split_min_max; lra.
Qed.

Lemma validate_value_id s v :
  slider_min s <= v <= slider_max s -> validate_value s v = v.
Proof.
  intros [Hlo Hhi]. unfold validate_value.
  destruct (Rgt_dec (slider_min s) v); [lra|].
  destruct (Rlt_dec (slider_max s) v); [lra|]. reflexivity.
Qed.

Lemma validate_value_range s v :
  slider_min s <= slider_max s ->
  slider_min s <= validate_value s v <= slider_max s.
Proof.
  intros Hle. rewrite validate_value_clamp by assumption.
  apply clamp_range; assumption.
Qed.

(** Capping the steering at [-1, 1] before the wheel clamp changes neither
    wheel, as long as the speed is a slider value of [0, 1]. *)
Lemma clamp_absorbs_left speed s :
  0 <= speed <= 1 ->
  clamp (speed + clamp s (-1.0) 1.0) 0.0 1.0 = clamp (speed + s) 0.0 1.0.
Proof.
  intros Hs. unfold clamp, Rmax, Rmin.
  split_min_max; lra.
Qed.

Lemma clamp_absorbs_right speed s :
  0 <= speed <= 1 ->
  clamp (speed - clamp s (-1.0) 1.0) 0.0 1.0 = clamp (speed - s) 0.0 1.0.
Proof.
  intros Hs. unfold clamp, Rmax, Rmin.
  split_min_max; lra.
Qed.

(** ** The angle *)

Lemma arctan2_forward x y : 0 < y -> arctan2 x y = atan (x / y).
Proof.
  intros Hy. unfold arctan2. destruct (Rlt_dec 0 y); [reflexivity | lra].
Qed.

Lemma arctan2_abeam x :
  arctan2 x 0 =
  if Rlt_dec 0 x then PI / 2 else if Rlt_dec x 0 then - PI / 2 else 0.
Proof.
  unfold arctan2.
  destruct (Rlt_dec 0 0); [lra | reflexivity].
Qed.

Lemma atan_pos t : 0 < t -> 0 < atan t.
Proof. intros Ht. rewrite <- atan_0. apply atan_increasing. exact Ht. Qed.

Lemma atan_neg t : t < 0 -> atan t < 0.
Proof. intros Ht. rewrite <- atan_0. apply atan_increasing. exact Ht. Qed.

Lemma quotient_pos x y : 0 < y -> 0 < x -> 0 < x / y.
Proof. intros Hy Hx. apply Rdiv_lt_0_compat; assumption. Qed.

Lemma quotient_neg x y : 0 < y -> x < 0 -> x / y < 0.
Proof.
  intros Hy Hx. unfold Rdiv.
  assert (0 < / y) by (apply Rinv_0_lt_compat; exact Hy).
  nra.
Qed.

(** ** Well-formed worlds *)

Lemma bounds_ordered k : fst (bounds k) <= snd (bounds k).
Proof. destruct k; simpl; lra. Qed.

Lemma world_of_well_formed initial :
  (forall k, fst (bounds k) <= initial k <= snd (bounds k)) ->
  well_formed (world_of initial).
Proof.
  intros Hin k. simpl. repeat split; apply Hin.
Qed.

Lemma live_initial_in_bounds k :
  fst (bounds k) <= live_initial k <= snd (bounds k).
Proof. destruct k; simpl; lra. Qed.

Lemma final_initial_in_bounds k :
  fst (bounds k) <= final_initial k <= snd (bounds k).
Proof. destruct k; simpl; lra. Qed.

Lemma write_well_formed k v w :
  well_formed w -> well_formed (exec (write k v) w).
Proof.
  intros Hw k'. unfold exec, write. cbn [snd sliders].
  destruct (Slider_eq_dec k k') as [<- | Hne]; [| apply Hw].
  destruct (Hw k) as (Hmin & Hmax & Hval).
  cbn [set_value slider_min slider_max slider_value].
  repeat split; try assumption; apply validate_value_range; lra.
Qed.

Lemma speed_of_well_formed w : well_formed w -> speed_of w = speed_gain w.
Proof.
  intros Hw. unfold speed_of, speed_gain.
  destruct (Hw speed_slider) as (Hmin & Hmax & _).
  destruct (Hw speed_gain_slider) as (Hmin' & Hmax' & Hval).
  apply validate_value_id. rewrite Hmin, Hmax.
  rewrite Hmin', Hmax' in Hval. simpl in *. lra.
Qed.

Lemma speed_gain_range w : well_formed w -> 0 <= speed_gain w <= 1.
Proof.
  intros Hw. unfold speed_gain.
  destruct (Hw speed_gain_slider) as (Hmin & Hmax & Hval).
  rewrite Hmin, Hmax in Hval. simpl in Hval. lra.
Qed.

Lemma steering_of_well_formed change w :
  well_formed w ->
  steering_of change w =
  clamp (pid_of change w + steering_bias w) (-1.0) 1.0.
Proof.
  intros Hw. unfold steering_of, steering_bias.
  destruct (Hw steering_slider) as (Hmin & Hmax & _).
  rewrite validate_value_clamp by (rewrite Hmin, Hmax; simpl; lra).
  rewrite Hmin, Hmax. reflexivity.
Qed.

(** The drive law of the specification, read off a well-formed world. *)
Lemma left_motor_value_law change w :
  well_formed w ->
  left_motor_value_of change w =
  clamp (speed_gain w
         + steering_law (arctan2 (xy0 change) (target_y change))
             (angle_last w) (steering_gain w) (steering_kd w)
             (steering_bias w)) 0.0 1.0.
Proof.
  intros Hw. unfold left_motor_value_of.
  rewrite py_clamp_is_clamp, speed_of_well_formed,
    steering_of_well_formed by assumption.
  apply clamp_absorbs_left, speed_gain_range, Hw.
Qed.

Lemma right_motor_value_law change w :
  well_formed w ->
  right_motor_value_of change w =
  clamp (speed_gain w
         - steering_law (arctan2 (xy0 change) (target_y change))
             (angle_last w) (steering_gain w) (steering_kd w)
             (steering_bias w)) 0.0 1.0.
Proof.
  intros Hw. unfold right_motor_value_of.
  rewrite py_clamp_is_clamp, speed_of_well_formed,
    steering_of_well_formed by assumption.
  apply clamp_absorbs_right, speed_gain_range, Hw.
Qed.

(** The command the robot is left with, by the branch taken. *)
Lemma robot_after_blocked threshold change w :
  prob_blocked change > threshold ->
  robot_after threshold change w = Robot.stop (robot w).
Proof.
  intros Hb. unfold robot_after.
  destruct (Rgt_dec (prob_blocked change) threshold); [reflexivity | lra].
Qed.

Lemma robot_after_clear threshold change w :
  ~ prob_blocked change > threshold ->
  robot_after threshold change w =
  Robot.set_right_motor (right_motor_value_of change w)
    (Robot.set_left_motor (left_motor_value_of change w) (robot w)).
Proof.
  intros Hb. unfold robot_after.
  destruct (Rgt_dec (prob_blocked change) threshold);
    [contradiction | reflexivity].
Qed.

Lemma sliders_after_well_formed change w :
  well_formed w ->
  forall k,
    slider_min (sliders_after change w k) = fst (bounds k) /\
    slider_max (sliders_after change w k) = snd (bounds k) /\
    slider_min (sliders_after change w k)
      <= slider_value (sliders_after change w k)
      <= slider_max (sliders_after change w k).
Proof.
  intros Hw k.
  assert (Hset : forall j v,
            slider_min (set_value (sliders w j) v) = fst (bounds j) /\
            slider_max (set_value (sliders w j) v) = snd (bounds j) /\
            slider_min (set_value (sliders w j) v)
              <= slider_value (set_value (sliders w j) v)
              <= slider_max (set_value (sliders w j) v)).
  { intros j v. destruct (Hw j) as (Hmin & Hmax & Hval).
    cbn [set_value slider_min slider_max slider_value].
    repeat split; try assumption; apply validate_value_range; lra. }
  destruct k; cbn [sliders_after]; first [apply Hset | apply Hw].
Qed.

Lemma live_well_formed threshold change w :
  well_formed w ->
  well_formed (exec (LiveDemo.execute_with threshold change) w).
Proof.
  intros Hw k. rewrite live_sliders.
  apply sliders_after_well_formed, Hw.
Qed.

Lemma final_well_formed threshold change w :
  well_formed w ->
  well_formed (exec (FinalDemo.execute_with threshold change) w).
Proof.
  intros Hw k. rewrite final_sliders.
  apply sliders_after_well_formed, Hw.
Qed.

(** Every world a session reaches is well formed: the cells, the frames and
    the moves of the sliders all go through the validator. *)
Lemma step_well_formed callback nb e :
  (forall change w, well_formed w -> well_formed (exec (callback change) w)) ->
  well_formed (world nb) ->
  well_formed (world (step callback nb e)).
Proof.
  intros Hcb Hw. destruct e as [| change | k v |]; simpl.
  - exact Hw.
  - destruct (observing nb); [apply Hcb, Hw | exact Hw].
  - apply write_well_formed, Hw.
  - exact Hw.
Qed.

Lemma run_well_formed callback events :
  (forall change w, well_formed w -> well_formed (exec (callback change) w)) ->
  forall nb,
    well_formed (world nb) ->
    well_formed (world (run callback nb events)).
Proof.
  intros Hcb. induction events as [| e events IH]; intros nb Hw.
  - exact Hw.
  - simpl. apply IH, step_well_formed; assumption.
Qed.

Lemma live_session_well_formed events :
  well_formed (world (run LiveDemo.execute fresh_live_notebook events)).
Proof.
  apply run_well_formed.
  - intros change w. apply live_well_formed.
  - apply world_of_well_formed, live_initial_in_bounds.
Qed.

(** ** The command after one call *)

Lemma command_blocked threshold change w :
  prob_blocked change > threshold ->
  (robot_left_motor (robot_after threshold change w),
   robot_right_motor (robot_after threshold change w)) = (0.0, 0.0).
Proof.
  intros Hb. rewrite robot_after_blocked by exact Hb.
  simpl. f_equal; lra.
Qed.

Lemma command_clear threshold change w :
  ~ prob_blocked change > threshold ->
  (robot_left_motor (robot_after threshold change w),
   robot_right_motor (robot_after threshold change w)) =
  (left_motor_value_of change w, right_motor_value_of change w).
Proof.
  intros Hb. rewrite robot_after_clear by exact Hb. reflexivity.
Qed.

Lemma live_command change w :
  motor_command (exec (LiveDemo.execute change) w) =
  (robot_left_motor (robot_after LiveDemo.block_threshold change w),
   robot_right_motor (robot_after LiveDemo.block_threshold change w)).
Proof.
  unfold motor_command, LiveDemo.execute. rewrite live_robot. reflexivity.
Qed.

Lemma final_command change w :
  motor_command (exec (FinalDemo.execute change) w) =
  (robot_left_motor (robot_after FinalDemo.block_threshold change w),
   robot_right_motor (robot_after FinalDemo.block_threshold change w)).
Proof.
  unfold motor_command, FinalDemo.execute. rewrite final_robot. reflexivity.
Qed.

(** * The claims *)

(** C1.  In both notebooks, when [prob_blocked] exceeds the block threshold
    the motors are left at exactly (0.0, 0.0), whatever [x], [y] and the
    speed gain are; otherwise they are left at the [left_motor_value] and
    [right_motor_value] the drive law computed. *)
Theorem override_or_drive (change : Observation) (w : World) :
  (prob_blocked change > LiveDemo.block_threshold ->
   motor_command (exec (LiveDemo.execute change) w) = (0.0, 0.0)) /\
  (~ prob_blocked change > LiveDemo.block_threshold ->
   motor_command (exec (LiveDemo.execute change) w) =
   (left_motor_value_of change w, right_motor_value_of change w)) /\
  (prob_blocked change > FinalDemo.block_threshold ->
   motor_command (exec (FinalDemo.execute change) w) = (0.0, 0.0)) /\
  (~ prob_blocked change > FinalDemo.block_threshold ->
   motor_command (exec (FinalDemo.execute change) w) =
   (left_motor_value_of change w, right_motor_value_of change w)).
Proof.
  rewrite live_command, final_command.
  repeat split; intros Hb.
  - apply command_blocked, Hb.
  - apply command_clear, Hb.
  - apply command_blocked, Hb.
  - apply command_clear, Hb.
Qed.

(** C2.  Whatever the frame and the world, both components of the command
    the motors are left with lie within [0.0, 1.0], in both notebooks. *)
Theorem motor_command_in_unit_interval (change : Observation) (w : World) :
  (0.0 <= fst (motor_command (exec (LiveDemo.execute change) w)) <= 1.0 /\
   0.0 <= snd (motor_command (exec (LiveDemo.execute change) w)) <= 1.0) /\
  (0.0 <= fst (motor_command (exec (FinalDemo.execute change) w)) <= 1.0 /\
   0.0 <= snd (motor_command (exec (FinalDemo.execute change) w)) <= 1.0).
Proof.
  rewrite live_command, final_command. cbn [fst snd].
  pose proof (py_clamp_range (speed_of w + steering_of change w)) as Hl.
  pose proof (py_clamp_range (speed_of w - steering_of change w)) as Hr.
  fold (left_motor_value_of change w) in Hl.
  fold (right_motor_value_of change w) in Hr.
  split.
  - unfold robot_after.
    destruct (Rgt_dec (prob_blocked change) LiveDemo.block_threshold);
      simpl; lra.
  - unfold robot_after.
    destruct (Rgt_dec (prob_blocked change) FinalDemo.block_threshold);
      simpl; lra.
Qed.

(** C3.  When the override does not fire, the command is
    left = clamp(speed_gain + steering, 0.0, 1.0) and
    right = clamp(speed_gain - steering, 0.0, 1.0) with
    steering = angle * steering_gain + (angle - previous_angle) * steering_kd
    + steering_bias, for every frame and every configuration and state the
    sliders can hold, in both notebooks. *)
Theorem drive_law (change : Observation) (w : World) :
  well_formed w ->
  let steering :=
    steering_law (arctan2 (xy0 change) (target_y change)) (angle_last w)
      (steering_gain w) (steering_kd w) (steering_bias w) in
  (~ prob_blocked change > LiveDemo.block_threshold ->
   motor_command (exec (LiveDemo.execute change) w) =
   (clamp (speed_gain w + steering) 0.0 1.0,
    clamp (speed_gain w - steering) 0.0 1.0)) /\
  (~ prob_blocked change > FinalDemo.block_threshold ->
   motor_command (exec (FinalDemo.execute change) w) =
   (clamp (speed_gain w + steering) 0.0 1.0,
    clamp (speed_gain w - steering) 0.0 1.0)).
Proof.
  intros Hw steering. subst steering.
  rewrite live_command, final_command.
  rewrite <- left_motor_value_law, <- right_motor_value_law by exact Hw.
  split; intros Hb; apply command_clear, Hb.
Qed.

(** The scenario of the specification in the live demo's initial world:
    speed gain 0.28, steering gain 0.07, no derivative gain, no bias. *)
Lemma drive_law_scenario :
  motor_command
    (exec (LiveDemo.execute scenario_frame) (world_of live_initial)) =
  (clamp (0.28 + steering_law (arctan2 0.5 ((0.5 - 0.3) / 2.0))
                   0.0 0.07 0.0 0.0) 0.0 1.0,
   clamp (0.28 - steering_law (arctan2 0.5 ((0.5 - 0.3) / 2.0))
                   0.0 0.07 0.0 0.0) 0.0 1.0).
Proof.
  apply (drive_law scenario_frame (world_of live_initial)).
  - apply world_of_well_formed, live_initial_in_bounds.
  - unfold LiveDemo.block_threshold. simpl. lra.
Defined.

(** C4.  For every raw model output, both notebooks leave in [angle] the
    value arctan2(x, y) with y = (0.5 - y_raw) / 2.0 and with x the first
    model output itself. *)
Theorem angle_of_target (change : Observation) (w : World) :
  target_y change = (0.5 - xy1 change) / 2.0 /\
  angle (exec (LiveDemo.execute change) w) =
    arctan2 (xy0 change) ((0.5 - xy1 change) / 2.0) /\
  angle (exec (FinalDemo.execute change) w) =
    arctan2 (xy0 change) ((0.5 - xy1 change) / 2.0).
Proof.
  unfold LiveDemo.execute, FinalDemo.execute.
  rewrite live_angle, final_angle. repeat split.
Qed.

(** C5.  After every call, [angle_last] holds the angle computed in that
    same call, whether or not the override fired, in both notebooks. *)
Theorem previous_angle_updated (change : Observation) (w : World) :
  (angle_last (exec (LiveDemo.execute change) w) =
     arctan2 (xy0 change) (target_y change) /\
   angle_last (exec (LiveDemo.execute change) w) =
     angle (exec (LiveDemo.execute change) w)) /\
  (angle_last (exec (FinalDemo.execute change) w) =
     arctan2 (xy0 change) (target_y change) /\
   angle_last (exec (FinalDemo.execute change) w) =
     angle (exec (FinalDemo.execute change) w)).
Proof.
  unfold LiveDemo.execute, FinalDemo.execute.
  rewrite live_angle, final_angle, live_angle_last, final_angle_last.
  repeat split.
Qed.

(** ** Whether the robot was stopped depends on the frame alone *)

Lemma stopped_robot_after threshold change w r :
  robot w = robot_after threshold change r ->
  stopped w <-> prob_blocked change > threshold.
Proof.
  intros Hr. unfold stopped. rewrite Hr. unfold robot_after.
  destruct (Rgt_dec (prob_blocked change) threshold) as [Hb | Hb]; simpl.
  - rewrite last_last. tauto.
  - rewrite last_last. split; [discriminate | contradiction].
Qed.

Lemma live_stopped change w :
  stopped (exec (LiveDemo.execute change) w) <->
  prob_blocked change > LiveDemo.block_threshold.
Proof. apply (stopped_robot_after _ _ _ w), live_robot. Qed.

Lemma final_stopped change w :
  stopped (exec (FinalDemo.execute change) w) <->
  prob_blocked change > FinalDemo.block_threshold.
Proof. apply (stopped_robot_after _ _ _ w), final_robot. Qed.

(** C6, as stated, fails: no configuration moves the live demo's override
    threshold. *)
Lemma live_threshold_not_tunable : ~ threshold_tunable LiveDemo.execute.
Proof.
  intros (c1 & c2 & w1 & w2 & Hp & H1 & H2).
  apply H2. apply live_stopped. rewrite <- Hp.
  apply (live_stopped c1 w1), H1.
Qed.

(** C6, amended.  The override threshold is a literal of each notebook's
    callback, 0.4 in the live demo and 0.7 in the final demo; whether the
    robot is stopped depends on [prob_blocked] and that literal alone, so a
    frame with 0.4 < prob_blocked <= 0.7 stops the robot in the first
    notebook and drives it in the second, whatever the sliders hold. *)
Theorem threshold_is_a_literal :
  LiveDemo.block_threshold = 0.4 /\
  FinalDemo.block_threshold = 0.7 /\
  (forall change w,
     stopped (exec (LiveDemo.execute change) w) <->
     prob_blocked change > 0.4) /\
  (forall change w,
     stopped (exec (FinalDemo.execute change) w) <->
     prob_blocked change > 0.7) /\
  (forall change w1 w2,
     0.4 < prob_blocked change <= 0.7 ->
     stopped (exec (LiveDemo.execute change) w1) /\
     ~ stopped (exec (FinalDemo.execute change) w2)).
Proof.
  split; [reflexivity |]. split; [reflexivity |].
  split; [exact live_stopped |]. split; [exact final_stopped |].
  intros change w1 w2 Hp. split.
  - apply live_stopped. unfold LiveDemo.block_threshold. lra.
  - intros Hs. apply final_stopped in Hs.
    unfold FinalDemo.block_threshold in Hs. lra.
Qed.

(** C7.  The angle is defined when the target is abeam (y = 0): it is PI/2,
    -PI/2 or 0 by the sign of x, no quotient by y being formed; for
    x = -0.8 and y_raw = 0.5 the angle is -PI/2, in both notebooks. *)
Theorem angle_defined_abeam :
  (forall change w,
     target_y change = 0 ->
     angle (exec (LiveDemo.execute change) w) =
       (if Rlt_dec 0 (xy0 change) then PI / 2
        else if Rlt_dec (xy0 change) 0 then - PI / 2 else 0) /\
     angle (exec (FinalDemo.execute change) w) =
       (if Rlt_dec 0 (xy0 change) then PI / 2
        else if Rlt_dec (xy0 change) 0 then - PI / 2 else 0)) /\
  (forall p w,
     target_y {| xy0 := -0.8; xy1 := 0.5; prob_blocked := p |} = 0.0 /\
     angle (exec (LiveDemo.execute
                    {| xy0 := -0.8; xy1 := 0.5; prob_blocked := p |}) w) =
       - PI / 2 /\
     angle (exec (FinalDemo.execute
                    {| xy0 := -0.8; xy1 := 0.5; prob_blocked := p |}) w) =
       - PI / 2).
Proof.
  assert (Hgen : forall change, target_y change = 0 ->
            arctan2 (xy0 change) (target_y change) =
            (if Rlt_dec 0 (xy0 change) then PI / 2
             else if Rlt_dec (xy0 change) 0 then - PI / 2 else 0)).
  { intros change Hy. rewrite Hy. apply arctan2_abeam. }
  split.
  - intros change w Hy. unfold LiveDemo.execute, FinalDemo.execute.
    rewrite live_angle, final_angle. split; apply Hgen, Hy.
  - intros p w. unfold LiveDemo.execute, FinalDemo.execute.
    rewrite live_angle, final_angle.
    assert (Hy : target_y {| xy0 := -0.8; xy1 := 0.5; prob_blocked := p |}
                 = 0) by (unfold target_y; simpl; lra).
    rewrite (Hgen _ Hy). cbn [xy0].
    destruct (Rlt_dec 0 (-0.8)); [lra |].
    destruct (Rlt_dec (-0.8) 0); [| lra].
    repeat split. rewrite Hy. lra.
Qed.

(** C8.  When the target is ahead (y > 0) the angle has the sign of x: zero
    for x = 0, positive for x > 0, negative for x < 0, in both notebooks. *)
Theorem angle_sign_follows_x (change : Observation) (w : World) :
  0 < target_y change ->
  (xy0 change = 0 ->
   angle (exec (LiveDemo.execute change) w) = 0 /\
   angle (exec (FinalDemo.execute change) w) = 0) /\
  (0 < xy0 change ->
   0 < angle (exec (LiveDemo.execute change) w) /\
   0 < angle (exec (FinalDemo.execute change) w)) /\
  (xy0 change < 0 ->
   angle (exec (LiveDemo.execute change) w) < 0 /\
   angle (exec (FinalDemo.execute change) w) < 0).
Proof.
  intros Hy. unfold LiveDemo.execute, FinalDemo.execute.
  rewrite live_angle, final_angle, arctan2_forward by exact Hy.
  split; [| split]; intros Hx.
  - rewrite Hx. unfold Rdiv. rewrite Rmult_0_l. split; apply atan_0.
  - split; apply atan_pos, quotient_pos; assumption.
  - split; apply atan_neg, quotient_neg; assumption.
Qed.

(** In the scenario the target is ahead and to the right: the angle is
    positive. *)
Lemma angle_sign_scenario :
  0 < angle (exec (LiveDemo.execute scenario_frame) (world_of live_initial))
  /\
  0 < angle (exec (FinalDemo.execute scenario_frame) (world_of final_initial)).
Proof.
  split.
  - apply (angle_sign_follows_x scenario_frame (world_of live_initial)).
    + unfold target_y. simpl. lra.
    + simpl. lra.
  - apply (angle_sign_follows_x scenario_frame (world_of final_initial)).
    + unfold target_y. simpl. lra.
    + simpl. lra.
Defined.

(** ** The shutdown cell and a callback in flight *)

Lemma stop_keeps_sliders w :
  well_formed w -> well_formed (exec (on_robot Robot.stop) w).
Proof. intros Hw k. apply Hw. Qed.

(** With no callback running, or one that returns within the 0.1 s of the
    sleep, the cell leaves nothing in flight and the robot stopped. *)
Lemma shutdown_cell_in_time callback s :
  match in_flight s with
  | Some (_, remaining) => remaining <= 0.1
  | None => True
  end ->
  subscribed (shutdown_cell callback s) = false /\
  in_flight (shutdown_cell callback s) = None /\
  stopped (globals (shutdown_cell callback s)) /\
  motor_command (globals (shutdown_cell callback s)) = (0.0, 0.0).
Proof.
  intros Hin. unfold shutdown_cell, stop_robot, elapse, unobserve.
  cbn [in_flight globals subscribed].
  destruct (in_flight s) as [[change remaining] |].
  - destruct (Rle_dec remaining 0.1); [| contradiction].
    cbn [in_flight globals subscribed].
    unfold stopped, motor_command, exec, on_robot.
    cbn [snd robot Robot.stop calls robot_left_motor robot_right_motor].
    rewrite last_last. repeat split. f_equal; lra.
  - unfold stopped, motor_command, exec, on_robot.
    cbn [snd robot Robot.stop calls robot_left_motor robot_right_motor].
    rewrite last_last. repeat split. f_equal; lra.
Qed.

Lemma later_quiet callback s e :
  subscribed s = false -> in_flight s = None ->
  subscribed (later callback s e) = false /\
  in_flight (later callback s e) = None /\
  robot (globals (later callback s e)) = robot (globals s).
Proof.
  intros Hsub Hin. destruct e as [d | change duration | k v].
  - unfold later, elapse. rewrite Hin. auto.
  - unfold later. rewrite Hsub. auto.
  - cbn [later subscribed in_flight globals]. auto.
Qed.

(** What holds of the cell: when nothing is in flight past the sleep, the
    stop is the last call the robot receives, whatever comes later. *)
Lemma shutdown_final_in_time callback events :
  forall s,
    subscribed s = false -> in_flight s = None ->
    robot (globals (fold_left (later callback) events s))
    = robot (globals s).
Proof.
  induction events as [| e events IH]; intros s Hsub Hin.
  - reflexivity.
  - cbn [fold_left].
    destruct (later_quiet callback s e Hsub Hin) as (Hsub' & Hin' & Hrobot).
    rewrite IH by assumption. exact Hrobot.
Qed.

Lemma stop_is_last_in_time callback s events :
  match in_flight s with
  | Some (_, remaining) => remaining <= 0.1
  | None => True
  end ->
  stopped (globals (fold_left (later callback) events
                      (shutdown_cell callback s))) /\
  motor_command (globals (fold_left (later callback) events
                            (shutdown_cell callback s))) = (0.0, 0.0).
Proof.
  intros Hin.
  destruct (shutdown_cell_in_time callback s Hin)
    as (Hsub & Hflight & Hstopped & Hcommand).
  unfold stopped, motor_command in *.
  rewrite shutdown_final_in_time by assumption.
  split; assumption.
Qed.

(** A callback that needs more than the 0.1 s of the sleep is still
    running when the cell stops the robot. *)
Lemma shutdown_cell_late callback s change remaining :
  in_flight s = Some (change, remaining) ->
  0.1 < remaining ->
  shutdown_cell callback s =
  {| globals := exec (on_robot Robot.stop) (globals s);
     subscribed := false;
     in_flight := Some (change, remaining - 0.1) |}.
Proof.
  intros Hin Hlate. unfold shutdown_cell, elapse, unobserve.
  cbn [in_flight globals subscribed]. rewrite Hin.
  destruct (Rle_dec remaining 0.1); [lra | reflexivity].
Qed.

(** It returns after [robot.stop()], and the robot is left as that
    callback leaves it. *)
Lemma late_callback callback s change remaining d :
  in_flight s = Some (change, remaining) ->
  0.1 < remaining ->
  remaining - 0.1 <= d ->
  elapse callback d (shutdown_cell callback s) =
  {| globals :=
       exec (callback change) (exec (on_robot Robot.stop) (globals s));
     subscribed := false;
     in_flight := None |}.
Proof.
  intros Hin Hlate Hd.
  rewrite (shutdown_cell_late callback s change remaining Hin Hlate).
  unfold elapse. cbn [in_flight globals subscribed].
  destruct (Rle_dec (remaining - 0.1) d); [reflexivity | contradiction].
Qed.

(** C9, as the code has it.  The shutdown cell is run while the live demo
    is still at work on the scenario frame and needs 0.15 s more: the
    callback is unsubscribed, the cell sleeps 0.1 s and stops the robot, and
    0.05 s later the callback returns and sets both motors.  The stop was
    issued, but it is not the last command: the robot ends up driving. *)
Theorem late_callback_overrides_stop :
  let s := elapse LiveDemo.execute 1
             (shutdown_cell LiveDemo.execute (busy_live_demo 0.15)) in
  subscribed s = false /\
  in_flight s = None /\
  calls (robot (globals s)) =
    [Stop;
     SetLeft (left_motor_value_of scenario_frame (world_of live_initial));
     SetRight (right_motor_value_of scenario_frame (world_of live_initial))]
  /\
  ~ stopped (globals s) /\
  0 < fst (motor_command (globals s)).
Proof.
  cbv zeta.
  rewrite (late_callback LiveDemo.execute (busy_live_demo 0.15)
             scenario_frame 0.15 1) by (try reflexivity; lra).
  cbn [subscribed in_flight globals busy_live_demo].
  assert (Hclear : ~ prob_blocked scenario_frame > LiveDemo.block_threshold)
    by (unfold LiveDemo.block_threshold; simpl; lra).
  assert (Hw : well_formed (world_of live_initial))
    by (apply world_of_well_formed, live_initial_in_bounds).
  split; [reflexivity | split; [reflexivity |]].
  split; [| split].
  - unfold LiveDemo.execute. rewrite live_robot.
    rewrite robot_after_clear by exact Hclear. reflexivity.
  - intros Hstopped. apply live_stopped in Hstopped. contradiction.
  - rewrite live_command, command_clear by exact Hclear. cbn [fst].
    rewrite left_motor_value_law by (apply stop_keeps_sliders, Hw).
    assert (Hangle : 0 < arctan2 (xy0 scenario_frame)
                           (target_y scenario_frame)).
    { assert (Hy : 0 < target_y scenario_frame)
        by (unfold target_y; simpl; lra).
      rewrite arctan2_forward by exact Hy.
      apply atan_pos, quotient_pos; [exact Hy | simpl; lra]. }
    unfold steering_law.
    change (speed_gain (exec (on_robot Robot.stop) (world_of live_initial)))
      with 0.28.
    change (steering_gain
              (exec (on_robot Robot.stop) (world_of live_initial)))
      with 0.07.
    change (steering_kd (exec (on_robot Robot.stop) (world_of live_initial)))
      with 0.0.
    change (steering_bias
              (exec (on_robot Robot.stop) (world_of live_initial)))
      with 0.0.
    change (angle_last (exec (on_robot Robot.stop) (world_of live_initial)))
      with 0.0.
    unfold clamp. split_min_max; lra.
Qed.

(** C10.  Run at one and the same threshold, the two callbacks leave the
    same robot (hence the same motor command), the same [angle_last], the
    same [angle] and the same sliders, for every frame and every world;
    the thresholds they are written with are 0.4 and 0.7, so the notebooks'
    own callbacks agree on every frame whose [prob_blocked] is not in
    (0.4, 0.7]. *)
Theorem callbacks_agree :
  (forall threshold change w,
     robot (exec (LiveDemo.execute_with threshold change) w) =
       robot (exec (FinalDemo.execute_with threshold change) w) /\
     motor_command (exec (LiveDemo.execute_with threshold change) w) =
       motor_command (exec (FinalDemo.execute_with threshold change) w) /\
     angle_last (exec (LiveDemo.execute_with threshold change) w) =
       angle_last (exec (FinalDemo.execute_with threshold change) w) /\
     angle (exec (LiveDemo.execute_with threshold change) w) =
       angle (exec (FinalDemo.execute_with threshold change) w) /\
     (forall k,
        sliders (exec (LiveDemo.execute_with threshold change) w) k =
        sliders (exec (FinalDemo.execute_with threshold change) w) k)) /\
  LiveDemo.execute = LiveDemo.execute_with 0.4 /\
  FinalDemo.execute = FinalDemo.execute_with 0.7 /\
  (forall change w,
     ~ 0.4 < prob_blocked change <= 0.7 ->
     motor_command (exec (LiveDemo.execute change) w) =
       motor_command (exec (FinalDemo.execute change) w) /\
     angle_last (exec (LiveDemo.execute change) w) =
       angle_last (exec (FinalDemo.execute change) w)).
Proof.
  split; [| split; [reflexivity | split; [reflexivity |]]].
  - intros threshold change w. unfold motor_command.
    rewrite live_robot, final_robot, live_angle, final_angle,
      live_angle_last, final_angle_last.
    repeat split.
    intros k. rewrite live_sliders, final_sliders. reflexivity.
  - intros change w Hp. rewrite live_command, final_command.
    unfold LiveDemo.execute, FinalDemo.execute.
    rewrite live_angle_last, final_angle_last.
    split; [| reflexivity].
    unfold robot_after, LiveDemo.block_threshold, FinalDemo.block_threshold.
    destruct (Rgt_dec (prob_blocked change) 0.4);
      destruct (Rgt_dec (prob_blocked change) 0.7);
      try reflexivity; lra.
Qed.

(** * Further properties of the callback *)

Lemma live_text threshold change w :
  left_motor (exec (LiveDemo.execute_with threshold change) w)
    = left_motor_value_of change w /\
  right_motor (exec (LiveDemo.execute_with threshold change) w)
    = right_motor_value_of change w.
Proof. split; by_execution w threshold change. Qed.

Lemma final_text threshold change w :
  left_motor (exec (FinalDemo.execute_with threshold change) w)
    = left_motor w /\
  right_motor (exec (FinalDemo.execute_with threshold change) w)
    = right_motor w.
Proof. split; by_execution w threshold change. Qed.

(** X1.  A call never writes the four configuration sliders and never
    changes the [min] or [max] of any slider, in both notebooks. *)
Theorem execute_keeps_configuration (change : Observation) (w : World) :
  (forall k,
     k = speed_gain_slider \/ k = steering_gain_slider \/
     k = steering_dgain_slider \/ k = steering_bias_slider ->
     sliders (exec (LiveDemo.execute change) w) k = sliders w k /\
     sliders (exec (FinalDemo.execute change) w) k = sliders w k) /\
  (forall k,
     slider_min (sliders (exec (LiveDemo.execute change) w) k)
       = slider_min (sliders w k) /\
     slider_max (sliders (exec (LiveDemo.execute change) w) k)
       = slider_max (sliders w k) /\
     slider_min (sliders (exec (FinalDemo.execute change) w) k)
       = slider_min (sliders w k) /\
     slider_max (sliders (exec (FinalDemo.execute change) w) k)
       = slider_max (sliders w k)).
Proof.
  unfold LiveDemo.execute, FinalDemo.execute. split; intros k.
  - intros Hk. rewrite live_sliders, final_sliders.
    destruct Hk as [-> | [-> | [-> | ->]]]; split; reflexivity.
  - rewrite live_sliders, final_sliders.
    destruct k; repeat split.
Qed.

(** X2.  Whatever cells are run, frames arrive and sliders are moved, every
    slider of either notebook keeps the bounds it was constructed with and a
    value within them. *)
Theorem sessions_stay_well_formed (events : list Event) :
  well_formed
    (world (run LiveDemo.execute
              {| world := world_of live_initial; observing := false |}
              events)) /\
  well_formed
    (world (run FinalDemo.execute
              {| world := world_of final_initial; observing := false |}
              events)).
Proof.
  split; apply run_well_formed.
  - intros change w. apply live_well_formed.
  - apply world_of_well_formed, live_initial_in_bounds.
  - intros change w. apply final_well_formed.
  - apply world_of_well_formed, final_initial_in_bounds.
Qed.

(** X3.  After a call the display sliders hold the capped values: x within
    [-1, 1], y within [0, 1], the blocked probability within [0, 1], the
    steering within [-1, 1], and the speed slider the speed gain; the angle
    was computed from the uncapped x and y. *)
Theorem displays_are_capped (change : Observation) (w : World) :
  well_formed w ->
  let after_live := exec (LiveDemo.execute change) w in
  let after_final := exec (FinalDemo.execute change) w in
  (forall k, sliders after_live k = sliders after_final k) /\
  slider_value (sliders after_live x_slider)
    = clamp (xy0 change) (-1.0) 1.0 /\
  slider_value (sliders after_live y_slider)
    = clamp (target_y change) 0 1.0 /\
  slider_value (sliders after_live blocked_slider)
    = clamp (prob_blocked change) 0.0 1.0 /\
  slider_value (sliders after_live steering_slider)
    = clamp (steering_before_cap change w) (-1.0) 1.0 /\
  slider_value (sliders after_live speed_slider) = speed_gain w.
Proof.
  intros Hw after_live after_final. subst after_live after_final.
  unfold LiveDemo.execute, FinalDemo.execute.
  assert (Hcap : forall j v,
            slider_value (set_value (sliders w j) v)
            = clamp v (fst (bounds j)) (snd (bounds j))).
  { intros j v. destruct (Hw j) as (Hmin & Hmax & _).
    cbn [set_value slider_value].
    rewrite validate_value_clamp by (rewrite Hmin, Hmax; apply bounds_ordered).
    rewrite Hmin, Hmax. reflexivity. }
  split; [intros k; rewrite live_sliders, final_sliders; reflexivity |].
  rewrite !live_sliders. cbn [sliders_after]. rewrite !Hcap.
  repeat split.
  fold (speed_of w). cbn [bounds fst snd].
  pose proof (speed_gain_range w Hw) as Hs.
  unfold clamp. split_min_max; lra.
Qed.

(** The displays after the scenario frame, from the live demo's initial
    world. *)
Lemma displays_scenario :
  slider_value
    (sliders (exec (LiveDemo.execute scenario_frame) (world_of live_initial))
       y_slider)
  = clamp (target_y scenario_frame) 0 1.0.
Proof.
  exact (proj1 (proj2 (proj2
    (displays_are_capped scenario_frame (world_of live_initial)
       (world_of_well_formed live_initial live_initial_in_bounds))))).
Defined.

(** X4.  The live demo shows the computed wheel values in its two
    [FloatText] displays on every call, also when the robot is stopped, so a
    blocked frame leaves the motors at (0.0, 0.0) under a display of the
    drive values; the final demo never writes the two displays. *)
Theorem text_displays (change : Observation) (w : World) :
  left_motor (exec (LiveDemo.execute change) w)
    = left_motor_value_of change w /\
  right_motor (exec (LiveDemo.execute change) w)
    = right_motor_value_of change w /\
  (prob_blocked change > LiveDemo.block_threshold ->
   motor_command (exec (LiveDemo.execute change) w) = (0.0, 0.0)) /\
  left_motor (exec (FinalDemo.execute change) w) = left_motor w /\
  right_motor (exec (FinalDemo.execute change) w) = right_motor w.
Proof.
  unfold LiveDemo.execute at 1 2, FinalDemo.execute.
  destruct (live_text LiveDemo.block_threshold change w) as [Hl Hr].
  destruct (final_text FinalDemo.block_threshold change w) as [Hl' Hr'].
  repeat split; try assumption.
  intros Hb. rewrite live_command. apply command_blocked, Hb.
Qed.

(** ** The range and the symmetry of the angle *)

Lemma arctan2_range x1 x2 : - PI < arctan2 x1 x2 <= PI.
Proof.
  pose proof PI_RGT_0 as Hpi.
  pose proof (atan_bound (x1 / x2)) as Hb.
  unfold arctan2.
  destruct (Rlt_dec 0 x2) as [Hpos | Hnpos]; [lra |].
  destruct (Rlt_dec x2 0) as [Hneg | Hnneg].
  - assert (Hinv : / x2 < 0) by (apply Rinv_lt_0_compat; exact Hneg).
    destruct (Rle_dec 0 x1) as [Hx | Hx].
    + assert (Hq : x1 / x2 <= 0) by (unfold Rdiv; nra).
      destruct Hq as [Hq | Hq].
      * pose proof (atan_neg _ Hq). lra.
      * rewrite Hq, atan_0. lra.
    + assert (Hq : 0 < x1 / x2) by (unfold Rdiv; nra).
      pose proof (atan_pos _ Hq). lra.
  - destruct (Rlt_dec 0 x1); [lra |].
    destruct (Rlt_dec x1 0); lra.
Qed.

Lemma arctan2_mirror x1 x2 :
  ~ (x1 = 0 /\ x2 < 0) -> arctan2 (- x1) x2 = - arctan2 x1 x2.
Proof.
  intros Hbehind. unfold arctan2.
  assert (Hq : - x1 / x2 = - (x1 / x2)) by (unfold Rdiv; ring).
  rewrite Hq, atan_opp.
  destruct (Rlt_dec 0 x2); [reflexivity |].
  destruct (Rlt_dec x2 0).
  - destruct (Rle_dec 0 (- x1)); destruct (Rle_dec 0 x1); lra.
  - destruct (Rlt_dec 0 (- x1)); destruct (Rlt_dec 0 x1);
      destruct (Rlt_dec (- x1) 0); destruct (Rlt_dec x1 0); lra.
Qed.

(** X5.  The angle a call leaves, and with it the previous angle of the
    next call, always lies in (-PI, PI], in both notebooks. *)
Theorem angle_in_range (change : Observation) (w : World) :
  - PI < angle (exec (LiveDemo.execute change) w) <= PI /\
  - PI < angle_last (exec (LiveDemo.execute change) w) <= PI /\
  - PI < angle (exec (FinalDemo.execute change) w) <= PI /\
  - PI < angle_last (exec (FinalDemo.execute change) w) <= PI.
Proof.
  unfold LiveDemo.execute, FinalDemo.execute.
  rewrite live_angle, final_angle, live_angle_last, final_angle_last.
  pose proof (arctan2_range (xy0 change) (target_y change)). tauto.
Qed.

(** ** Properties shared by the two callbacks *)

Lemma live_behaves : behaves LiveDemo.block_threshold LiveDemo.execute.
Proof.
  intros change w. unfold LiveDemo.execute.
  rewrite live_robot, live_angle_last.
  repeat split. intros k. apply live_sliders.
Qed.

Lemma final_behaves : behaves FinalDemo.block_threshold FinalDemo.execute.
Proof.
  intros change w. unfold FinalDemo.execute.
  rewrite final_robot, final_angle_last.
  repeat split. intros k. apply final_sliders.
Qed.

Lemma clamp_mirror v : clamp (- v) (-1.0) 1.0 = - clamp v (-1.0) 1.0.
Proof. unfold clamp. split_min_max; lra.
Qed.

Lemma clamp_monotone a b lo hi : a <= b -> clamp a lo hi <= clamp b lo hi.
Proof. intros Hab. unfold clamp. split_min_max; lra. Qed.

Lemma steering_gain_range w : well_formed w -> 0 <= steering_gain w <= 1.
Proof.
  intros Hw. unfold steering_gain.
  destruct (Hw steering_gain_slider) as (Hmin & Hmax & Hval).
  rewrite Hmin, Hmax in Hval. simpl in Hval. lra.
Qed.

Section Callback.

Variable threshold : R.
Variable callback : Observation -> M unit.
Hypothesis Hcb : behaves threshold callback.

Lemma callback_command change w :
  motor_command (exec (callback change) w) =
  (robot_left_motor (robot_after threshold change w),
   robot_right_motor (robot_after threshold change w)).
Proof.
  unfold motor_command. destruct (Hcb change w) as (-> & _). reflexivity.
Qed.

Lemma callback_well_formed change w :
  well_formed w -> well_formed (exec (callback change) w).
Proof.
  intros Hw k. destruct (Hcb change w) as (_ & _ & ->).
  apply sliders_after_well_formed, Hw.
Qed.

Lemma callback_keeps_gains change w :
  speed_gain (exec (callback change) w) = speed_gain w /\
  steering_gain (exec (callback change) w) = steering_gain w /\
  steering_kd (exec (callback change) w) = steering_kd w /\
  steering_bias (exec (callback change) w) = steering_bias w.
Proof.
  unfold speed_gain, steering_gain, steering_kd, steering_bias.
  destruct (Hcb change w) as (_ & _ & Hs). rewrite !Hs.
  repeat split.
Qed.

Lemma callback_clear_command change w :
  well_formed w ->
  ~ prob_blocked change > threshold ->
  motor_command (exec (callback change) w) =
  (clamp (speed_gain w + steering_before_cap change w) 0.0 1.0,
   clamp (speed_gain w - steering_before_cap change w) 0.0 1.0).
Proof.
  intros Hw Hb. rewrite callback_command, command_clear by exact Hb.
  rewrite left_motor_value_law, right_motor_value_law by exact Hw.
  reflexivity.
Qed.

(** The second of two calls on frames with the same target. *)
Lemma callback_steady p change w :
  well_formed w ->
  ~ prob_blocked change > threshold ->
  motor_command
    (exec (callback change)
       (exec (callback (with_prob_blocked p change)) w)) =
  (clamp (speed_gain w
          + (arctan2 (xy0 change) (target_y change) * steering_gain w
             + steering_bias w)) 0.0 1.0,
   clamp (speed_gain w
          - (arctan2 (xy0 change) (target_y change) * steering_gain w
             + steering_bias w)) 0.0 1.0).
Proof.
  intros Hw Hb.
  rewrite callback_clear_command
    by (try apply callback_well_formed; assumption).
  destruct (callback_keeps_gains (with_prob_blocked p change) w)
    as (Hsg & Hg & Hkd & Hbias).
  unfold steering_before_cap, steering_law.
  rewrite Hsg, Hg, Hkd, Hbias.
  destruct (Hcb (with_prob_blocked p change) w) as (_ & -> & _).
  change (xy0 (with_prob_blocked p change)) with (xy0 change).
  change (target_y (with_prob_blocked p change)) with (target_y change).
  f_equal; f_equal; ring.
Qed.

(** The obstacle probability of a frame leaves no trace in the command
    of the next frame. *)
Lemma callback_no_memory p p' change next w :
  motor_command
    (exec (callback next) (exec (callback (with_prob_blocked p change)) w))
  = motor_command
    (exec (callback next) (exec (callback (with_prob_blocked p' change)) w)).
Proof.
  rewrite !callback_command. unfold robot_after.
  destruct (Rgt_dec (prob_blocked next) threshold); [reflexivity |].
  cbn [Robot.set_right_motor Robot.set_left_motor
       robot_left_motor robot_right_motor].
  unfold left_motor_value_of, right_motor_value_of, speed_of, steering_of,
    pid_of.
  destruct (Hcb (with_prob_blocked p change) w) as (_ & -> & Hs).
  destruct (Hcb (with_prob_blocked p' change) w) as (_ & -> & Hs').
  rewrite !Hs, !Hs'. reflexivity.
Qed.

End Callback.

(** X6.  On the second of two frames with the same target the derivative
    term vanishes: whatever the derivative gain and the state before, the
    command is the clamp of speed_gain +/- (angle * steering_gain +
    steering_bias), in both notebooks. *)
Theorem steady_target_has_no_derivative
  (p : R) (change : Observation) (w : World) :
  well_formed w ->
  let proportional :=
    arctan2 (xy0 change) (target_y change) * steering_gain w
    + steering_bias w in
  (~ prob_blocked change > LiveDemo.block_threshold ->
   motor_command
     (exec (LiveDemo.execute change)
        (exec (LiveDemo.execute (with_prob_blocked p change)) w)) =
   (clamp (speed_gain w + proportional) 0.0 1.0,
    clamp (speed_gain w - proportional) 0.0 1.0)) /\
  (~ prob_blocked change > FinalDemo.block_threshold ->
   motor_command
     (exec (FinalDemo.execute change)
        (exec (FinalDemo.execute (with_prob_blocked p change)) w)) =
   (clamp (speed_gain w + proportional) 0.0 1.0,
    clamp (speed_gain w - proportional) 0.0 1.0)).
Proof.
  intros Hw proportional. subst proportional. split; intros Hb.
  - apply (callback_steady _ _ live_behaves); assumption.
  - apply (callback_steady _ _ final_behaves); assumption.
Qed.

(** The scenario frame twice, the first time behind an obstacle. *)
Lemma steady_scenario :
  motor_command
    (exec (LiveDemo.execute scenario_frame)
       (exec (LiveDemo.execute (with_prob_blocked 0.9 scenario_frame))
          (world_of live_initial))) =
  (clamp (speed_gain (world_of live_initial)
          + (arctan2 (xy0 scenario_frame) (target_y scenario_frame)
             * steering_gain (world_of live_initial)
             + steering_bias (world_of live_initial))) 0.0 1.0,
   clamp (speed_gain (world_of live_initial)
          - (arctan2 (xy0 scenario_frame) (target_y scenario_frame)
             * steering_gain (world_of live_initial)
             + steering_bias (world_of live_initial))) 0.0 1.0).
Proof.
  apply (steady_target_has_no_derivative 0.9 scenario_frame
           (world_of live_initial)).
  - apply world_of_well_formed, live_initial_in_bounds.
  - unfold LiveDemo.block_threshold. simpl. lra.
Defined.

(** X7.  The stop is not latched: whether the previous frame was blocked
    or not makes no difference to the command of the next frame, in both
    notebooks and for every world. *)
Theorem override_leaves_no_trace
  (p p' : R) (change next : Observation) (w : World) :
  motor_command
    (exec (LiveDemo.execute next)
       (exec (LiveDemo.execute (with_prob_blocked p change)) w))
  = motor_command
    (exec (LiveDemo.execute next)
       (exec (LiveDemo.execute (with_prob_blocked p' change)) w)) /\
  motor_command
    (exec (FinalDemo.execute next)
       (exec (FinalDemo.execute (with_prob_blocked p change)) w))
  = motor_command
    (exec (FinalDemo.execute next)
       (exec (FinalDemo.execute (with_prob_blocked p' change)) w)).
Proof.
  split.
  - apply (callback_no_memory _ _ live_behaves).
  - apply (callback_no_memory _ _ final_behaves).
Qed.

(** ** Symmetry, direction and saturation of the drive law *)

Lemma wheels_mirror change w wm :
  well_formed w ->
  (forall k, sliders wm k = sliders w k) ->
  angle_last wm = - angle_last w ->
  steering_bias w = 0 ->
  ~ (xy0 change = 0 /\ target_y change < 0) ->
  left_motor_value_of (mirror change) wm = right_motor_value_of change w /\
  right_motor_value_of (mirror change) wm = left_motor_value_of change w.
Proof.
  intros Hw Hs Hlast Hbias Hbehind.
  assert (Hst : steering_of (mirror change) wm = - steering_of change w).
  { unfold steering_of, pid_of. rewrite Hlast, !Hs.
    change (xy0 (mirror change)) with (- xy0 change).
    change (target_y (mirror change)) with (target_y change).
    rewrite arctan2_mirror by exact Hbehind.
    destruct (Hw steering_slider) as (Hmin & Hmax & _).
    rewrite !validate_value_clamp by (rewrite Hmin, Hmax; simpl; lra).
    rewrite Hmin, Hmax. cbn [bounds fst snd].
    unfold steering_bias in Hbias. rewrite Hbias.
    rewrite <- clamp_mirror. f_equal. ring. }
  assert (Hsp : speed_of wm = speed_of w)
    by (unfold speed_of; rewrite !Hs; reflexivity).
  unfold left_motor_value_of, right_motor_value_of.
  rewrite Hst, Hsp. split; f_equal; f_equal; ring.
Qed.

Lemma robot_after_mirror threshold change w wm :
  well_formed w ->
  (forall k, sliders wm k = sliders w k) ->
  angle_last wm = - angle_last w ->
  steering_bias w = 0 ->
  ~ (xy0 change = 0 /\ target_y change < 0) ->
  (robot_left_motor (robot_after threshold (mirror change) wm),
   robot_right_motor (robot_after threshold (mirror change) wm)) =
  (robot_right_motor (robot_after threshold change w),
   robot_left_motor (robot_after threshold change w)).
Proof.
  intros Hw Hs Hlast Hbias Hbehind.
  destruct (wheels_mirror change w wm Hw Hs Hlast Hbias Hbehind) as [Hl Hr].
  unfold robot_after. change (prob_blocked (mirror change))
    with (prob_blocked change).
  destruct (Rgt_dec (prob_blocked change) threshold); simpl.
  - reflexivity.
  - rewrite Hl, Hr. reflexivity.
Qed.

(** X8.  With no steering bias, mirroring the target (x to -x) and the
    previous angle swaps the two wheels, unless the target is straight
    behind (x = 0, y < 0), in both notebooks. *)
Theorem mirrored_target_swaps_wheels
  (change : Observation) (w wm : World) :
  well_formed w ->
  (forall k, sliders wm k = sliders w k) ->
  angle_last wm = - angle_last w ->
  steering_bias w = 0 ->
  ~ (xy0 change = 0 /\ target_y change < 0) ->
  motor_command (exec (LiveDemo.execute (mirror change)) wm) =
    (snd (motor_command (exec (LiveDemo.execute change) w)),
     fst (motor_command (exec (LiveDemo.execute change) w))) /\
  motor_command (exec (FinalDemo.execute (mirror change)) wm) =
    (snd (motor_command (exec (FinalDemo.execute change) w)),
     fst (motor_command (exec (FinalDemo.execute change) w))).
Proof.
  intros Hw Hs Hlast Hbias Hbehind.
  rewrite !live_command, !final_command. cbn [fst snd].
  split; apply robot_after_mirror; assumption.
Qed.

(** The mirrored scenario in the live demo's initial world. *)
Lemma mirrored_scenario :
  motor_command
    (exec (LiveDemo.execute (mirror scenario_frame)) (world_of live_initial))
  = (snd (motor_command
            (exec (LiveDemo.execute scenario_frame) (world_of live_initial))),
     fst (motor_command
            (exec (LiveDemo.execute scenario_frame) (world_of live_initial)))).
Proof.
  apply (mirrored_target_swaps_wheels scenario_frame
           (world_of live_initial) (world_of live_initial)).
  - apply world_of_well_formed, live_initial_in_bounds.
  - reflexivity.
  - simpl. lra.
  - unfold steering_bias. simpl. lra.
  - intros [Hx _]. simpl in Hx. lra.
Defined.

Lemma wheels_follow_steering change w :
  well_formed w ->
  (0 <= steering_before_cap change w ->
   right_motor_value_of change w <= left_motor_value_of change w) /\
  (steering_before_cap change w <= 0 ->
   left_motor_value_of change w <= right_motor_value_of change w).
Proof.
  intros Hw. rewrite left_motor_value_law, right_motor_value_law by exact Hw.
  fold (steering_before_cap change w).
  split; intros Hs; apply clamp_monotone; lra.
Qed.

Lemma steering_sign_ahead change w :
  well_formed w ->
  steering_kd w = 0 ->
  steering_bias w = 0 ->
  0 < target_y change ->
  (0 <= xy0 change -> 0 <= steering_before_cap change w) /\
  (xy0 change <= 0 -> steering_before_cap change w <= 0).
Proof.
  intros Hw Hkd Hbias Hy.
  pose proof (steering_gain_range w Hw) as Hg.
  unfold steering_before_cap, steering_law.
  rewrite Hkd, Hbias, arctan2_forward by exact Hy.
  split; intros Hx.
  - destruct Hx as [Hx | <-].
    + pose proof (atan_pos _ (quotient_pos _ _ Hy Hx)). nra.
    + unfold Rdiv. rewrite Rmult_0_l, atan_0. lra.
  - destruct Hx as [Hx | ->].
    + pose proof (atan_neg _ (quotient_neg _ _ Hy Hx)). nra.
    + unfold Rdiv. rewrite Rmult_0_l, atan_0. lra.
Qed.

Lemma robot_after_follows threshold change w :
  right_motor_value_of change w <= left_motor_value_of change w ->
  robot_right_motor (robot_after threshold change w)
  <= robot_left_motor (robot_after threshold change w).
Proof.
  intros Hle. unfold robot_after.
  destruct (Rgt_dec (prob_blocked change) threshold); simpl; lra.
Qed.

Lemma robot_after_follows_left threshold change w :
  left_motor_value_of change w <= right_motor_value_of change w ->
  robot_left_motor (robot_after threshold change w)
  <= robot_right_motor (robot_after threshold change w).
Proof.
  intros Hle. unfold robot_after.
  destruct (Rgt_dec (prob_blocked change) threshold); simpl; lra.
Qed.

(** X9.  With no derivative gain and no bias, a target ahead and to the
    right (x >= 0, y > 0) never makes the left wheel slower than the right
    one, and a target ahead and to the left never makes it faster: the robot
    turns towards the target, in both notebooks. *)
Theorem turns_towards_target (change : Observation) (w : World) :
  well_formed w ->
  steering_kd w = 0 ->
  steering_bias w = 0 ->
  0 < target_y change ->
  (0 <= xy0 change ->
   snd (motor_command (exec (LiveDemo.execute change) w))
     <= fst (motor_command (exec (LiveDemo.execute change) w)) /\
   snd (motor_command (exec (FinalDemo.execute change) w))
     <= fst (motor_command (exec (FinalDemo.execute change) w))) /\
  (xy0 change <= 0 ->
   fst (motor_command (exec (LiveDemo.execute change) w))
     <= snd (motor_command (exec (LiveDemo.execute change) w)) /\
   fst (motor_command (exec (FinalDemo.execute change) w))
     <= snd (motor_command (exec (FinalDemo.execute change) w))).
Proof.
  intros Hw Hkd Hbias Hy.
  rewrite live_command, final_command. cbn [fst snd].
  destruct (steering_sign_ahead change w Hw Hkd Hbias Hy) as [Hpos Hneg].
  destruct (wheels_follow_steering change w Hw) as [Hright Hleft].
  split; intros Hx.
  - split; apply robot_after_follows, Hright, Hpos, Hx.
  - split; apply robot_after_follows_left, Hleft, Hneg, Hx.
Qed.

(** In the scenario the target is to the right: the left wheel is at least
    as fast as the right one. *)
Lemma turns_scenario :
  snd (motor_command
         (exec (LiveDemo.execute scenario_frame) (world_of live_initial)))
  <= fst (motor_command
            (exec (LiveDemo.execute scenario_frame) (world_of live_initial))).
Proof.
  apply (turns_towards_target scenario_frame (world_of live_initial)).
  - apply world_of_well_formed, live_initial_in_bounds.
  - unfold steering_kd. simpl. lra.
  - unfold steering_bias. simpl. lra.
  - unfold target_y. simpl. lra.
  - simpl. lra.
Defined.

Lemma wheels_saturate change w :
  well_formed w ->
  (1 <= steering_before_cap change w ->
   left_motor_value_of change w = 1.0 /\
   right_motor_value_of change w = 0.0) /\
  (steering_before_cap change w <= -1 ->
   left_motor_value_of change w = 0.0 /\
   right_motor_value_of change w = 1.0).
Proof.
  intros Hw. rewrite left_motor_value_law, right_motor_value_law by exact Hw.
  fold (steering_before_cap change w).
  pose proof (speed_gain_range w Hw) as Hs.
  unfold clamp. split; intros Hst; split; split_min_max; lra.
Qed.

(** X10.  Once the steering reaches 1 the command of an unblocked frame is
    exactly (1.0, 0.0), and once it reaches -1 exactly (0.0, 1.0), whatever
    the speed gain: the robot pivots at full power, in both notebooks. *)
Theorem saturated_steering_pivots (change : Observation) (w : World) :
  well_formed w ->
  (1 <= steering_before_cap change w ->
   (~ prob_blocked change > LiveDemo.block_threshold ->
    motor_command (exec (LiveDemo.execute change) w) = (1.0, 0.0)) /\
   (~ prob_blocked change > FinalDemo.block_threshold ->
    motor_command (exec (FinalDemo.execute change) w) = (1.0, 0.0))) /\
  (steering_before_cap change w <= -1 ->
   (~ prob_blocked change > LiveDemo.block_threshold ->
    motor_command (exec (LiveDemo.execute change) w) = (0.0, 1.0)) /\
   (~ prob_blocked change > FinalDemo.block_threshold ->
    motor_command (exec (FinalDemo.execute change) w) = (0.0, 1.0))).
Proof.
  intros Hw. rewrite live_command, final_command.
  destruct (wheels_saturate change w Hw) as [Hright Hleft].
  split; intros Hst; split; intros Hb; rewrite command_clear by exact Hb.
  - destruct (Hright Hst) as [-> ->]. reflexivity.
  - destruct (Hright Hst) as [-> ->]. reflexivity.
  - destruct (Hleft Hst) as [-> ->]. reflexivity.
  - destruct (Hleft Hst) as [-> ->]. reflexivity.
Qed.

(** With the steering gain at 1 a target abeam to the right gives a
    steering of PI/2, and the live demo pivots. *)
Lemma pivot_abeam :
  motor_command
    (exec (LiveDemo.execute abeam_frame) (world_of full_gain_initial))
  = (1.0, 0.0).
Proof.
  assert (Hw : well_formed (world_of full_gain_initial)).
  { apply world_of_well_formed. intros k. destruct k; simpl; lra. }
  apply (proj1 (saturated_steering_pivots abeam_frame
                  (world_of full_gain_initial) Hw)).
  - unfold steering_before_cap, steering_law, steering_gain, steering_kd,
      steering_bias, target_y. simpl.
    replace ((0.5 - 0.5) / 2.0) with 0 by lra.
    rewrite arctan2_abeam.
    destruct (Rlt_dec 0 1.0); [| lra].
    pose proof PI2_1. lra.
  - unfold LiveDemo.block_threshold. simpl. lra.
Defined.

(** ** Moving a slider between two frames *)

Lemma write_same k v w :
  sliders (exec (write k v) w) k = set_value (sliders w k) v.
Proof.
  unfold exec, write. cbn [snd sliders].
  destruct (Slider_eq_dec k k); [reflexivity | contradiction].
Qed.

Lemma write_other k k' v w :
  k <> k' -> sliders (exec (write k v) w) k' = sliders w k'.
Proof.
  intros Hne. unfold exec, write. cbn [snd sliders].
  destruct (Slider_eq_dec k k'); [contradiction | reflexivity].
Qed.

Lemma run_tune_frame callback w k v change :
  world (run callback {| world := w; observing := true |}
           [Tune k v; Frame change])
  = exec (callback change) (exec (write k v) w).
Proof. reflexivity. Qed.

Lemma tuned_speed_gain v w :
  well_formed w ->
  speed_gain (exec (write speed_gain_slider v) w) = clamp v 0.0 1.0 /\
  forall change,
    steering_before_cap change (exec (write speed_gain_slider v) w)
    = steering_before_cap change w.
Proof.
  intros Hw. split.
  - unfold speed_gain. rewrite write_same.
    destruct (Hw speed_gain_slider) as (Hmin & Hmax & _).
    cbn [set_value slider_value].
    rewrite validate_value_clamp by (rewrite Hmin, Hmax; simpl; lra).
    rewrite Hmin, Hmax. reflexivity.
  - intros change.
    unfold steering_before_cap, steering_gain, steering_kd, steering_bias.
    rewrite !write_other by discriminate. reflexivity.
Qed.

(** X11.  The configuration is read anew on every call: when the speed
    slider is set to [v] between two frames, the next unblocked frame drives
    with [v] capped to [0, 1] and the steering of the untouched sliders, in
    both notebooks. *)
Theorem tuning_takes_effect (v : R) (change : Observation) (w : World) :
  well_formed w ->
  (~ prob_blocked change > LiveDemo.block_threshold ->
   motor_command
     (world (run LiveDemo.execute {| world := w; observing := true |}
               [Tune speed_gain_slider v; Frame change])) =
   (clamp (clamp v 0.0 1.0 + steering_before_cap change w) 0.0 1.0,
    clamp (clamp v 0.0 1.0 - steering_before_cap change w) 0.0 1.0)) /\
  (~ prob_blocked change > FinalDemo.block_threshold ->
   motor_command
     (world (run FinalDemo.execute {| world := w; observing := true |}
               [Tune speed_gain_slider v; Frame change])) =
   (clamp (clamp v 0.0 1.0 + steering_before_cap change w) 0.0 1.0,
    clamp (clamp v 0.0 1.0 - steering_before_cap change w) 0.0 1.0)).
Proof.
  intros Hw. rewrite !run_tune_frame.
  destruct (tuned_speed_gain v w Hw) as [Hspeed Hsteer].
  pose proof (write_well_formed speed_gain_slider v w Hw) as Hw'.
  split; intros Hb.
  - rewrite (callback_clear_command _ _ live_behaves) by assumption.
    rewrite Hspeed, Hsteer. reflexivity.
  - rewrite (callback_clear_command _ _ final_behaves) by assumption.
    rewrite Hspeed, Hsteer. reflexivity.
Qed.

(** The speed slider pushed past its maximum before the scenario frame. *)
Lemma tuning_scenario :
  motor_command
    (world (run LiveDemo.execute
              {| world := world_of live_initial; observing := true |}
              [Tune speed_gain_slider 5; Frame scenario_frame])) =
  (clamp (clamp 5 0.0 1.0
          + steering_before_cap scenario_frame (world_of live_initial))
     0.0 1.0,
   clamp (clamp 5 0.0 1.0
          - steering_before_cap scenario_frame (world_of live_initial))
     0.0 1.0).
Proof.
  apply (tuning_takes_effect 5 scenario_frame (world_of live_initial)).
  - apply world_of_well_formed, live_initial_in_bounds.
  - unfold LiveDemo.block_threshold. simpl. lra.
Defined.

(** ** The overlay *)




(** * The training loop *)

Module TrainModelFacts.
Import TrainModel.

Lemma py_div_defined a n :
  n <> 0%nat -> py_div a (INR n) = Some (a / INR n).
Proof.
  intros Hn. unfold py_div.
  destruct (Req_dec_T (INR n) 0) as [Hz | _]; [| reflexivity].
  exfalso. apply Hn. apply INR_eq. exact Hz.
Qed.

Lemma run_epoch_defined len_train len_test outcome st epoch :
  len_train <> 0%nat -> len_test <> 0%nat ->
  run_epoch len_train len_test outcome st epoch =
  Some
    {| best_accuracy :=
         if Rgt_dec (test_accuracy len_test outcome epoch) (best_accuracy st)
         then test_accuracy len_test outcome epoch else best_accuracy st;
       accuracy_train :=
         accuracy_train st ++ [train_accuracy len_train outcome epoch];
       accuracy_test :=
         accuracy_test st ++ [test_accuracy len_test outcome epoch];
       best_model :=
         if Rgt_dec (test_accuracy len_test outcome epoch) (best_accuracy st)
         then Some epoch else best_model st |}.
Proof.
  intros Htrain Htest. unfold run_epoch.
  rewrite !py_div_defined by assumption. reflexivity.
Qed.

Lemma best_so_far_step acc k st :
  best_so_far acc k st ->
  best_so_far acc (S k)
    {| best_accuracy :=
         if Rgt_dec (acc k) (best_accuracy st)
         then acc k else best_accuracy st;
       accuracy_train := accuracy_train st;
       accuracy_test := accuracy_test st;
       best_model :=
         if Rgt_dec (acc k) (best_accuracy st)
         then Some k else best_model st |}.
Proof.
  intros [Hbound Hbest]. unfold best_so_far. cbn [best_accuracy best_model].
  assert (Hnonneg : 0 <= best_accuracy st).
  { destruct (best_model st) as [e0 |].
    - destruct Hbest as (_ & <- & Hpos & _). lra.
    - lra. }
  destruct (Rgt_dec (acc k) (best_accuracy st)) as [Hgt | Hle].
  - split.
    + intros e He. apply Nat.lt_succ_r in He.
      destruct (Nat.eq_dec e k) as [-> | Hne]; [lra |].
      assert (Hek : (e < k)%nat) by lia. specialize (Hbound e Hek). lra.
    + repeat split; try lia; try lra.
      intros e He. specialize (Hbound e He). lra.
  - split.
    + intros e He. apply Nat.lt_succ_r in He.
      destruct (Nat.eq_dec e k) as [-> | Hne]; [lra |].
      apply Hbound. lia.
    + destruct (best_model st) as [e0 |]; [| exact Hbest].
      destruct Hbest as (Hlt & Heq & Hpos & Hfirst).
      repeat split; try assumption. lia.
Qed.

Lemma train_loop_spec len_train len_test outcome :
  len_train <> 0%nat -> len_test <> 0%nat ->
  forall n k st,
    best_so_far (test_accuracy len_test outcome) k st ->
    exists st',
      train_loop len_train len_test outcome (seq k n) st = Some st' /\
      best_so_far (test_accuracy len_test outcome) (k + n) st' /\
      accuracy_train st' =
        accuracy_train st
        ++ map (train_accuracy len_train outcome) (seq k n) /\
      accuracy_test st' =
        accuracy_test st ++ map (test_accuracy len_test outcome) (seq k n).
Proof.
  intros Htrain Htest. induction n as [| n IH]; intros k st Hinv.
  - exists st. simpl. rewrite Nat.add_0_r, !app_nil_r. auto.
  - cbn [seq train_loop]. rewrite run_epoch_defined by assumption.
    pose proof (best_so_far_step _ k st Hinv) as Hstep.
    match goal with
    | |- context [train_loop _ _ _ _ ?s] =>
        destruct (IH (S k) s) as (st' & Hrun & Hinv' & Htr & Hte)
    end.
    { exact Hstep. }
    exists st'. split; [exact Hrun |].
    split; [rewrite <- Nat.add_succ_comm; exact Hinv' |].
    cbn [accuracy_train accuracy_test] in Htr, Hte.
    rewrite Htr, Hte, <- !app_assoc. split; reflexivity.
Qed.

Lemma initial_best_so_far acc : best_so_far acc 0 initial.
Proof.
  split.
  - intros e He. lia.
  - simpl. lra.
Qed.

(** X13.  With non-empty datasets the training cell completes, and what it
    leaves is the best test accuracy of the 30 epochs (or 0.0 when none is
    positive); the file of the best model holds the state of the first
    epoch that reached that accuracy, and is never written when no epoch has
    a positive test accuracy. *)
Theorem saved_model_is_first_best
  (len_train len_test : nat) (outcome : nat -> Epoch) :
  len_train <> 0%nat -> len_test <> 0%nat ->
  exists st,
    train len_train len_test outcome = Some st /\
    (forall e, (e < NUM_EPOCHS)%nat ->
       test_accuracy len_test outcome e <= best_accuracy st) /\
    (best_model st = None <->
     forall e, (e < NUM_EPOCHS)%nat ->
       test_accuracy len_test outcome e <= 0) /\
    (best_model st = None -> best_accuracy st = 0) /\
    (forall e0, best_model st = Some e0 ->
       (e0 < NUM_EPOCHS)%nat /\
       best_accuracy st = test_accuracy len_test outcome e0 /\
       0 < test_accuracy len_test outcome e0 /\
       forall e, (e < e0)%nat ->
         test_accuracy len_test outcome e
         < test_accuracy len_test outcome e0).
Proof.
  intros Htrain Htest.
  destruct (train_loop_spec len_train len_test outcome Htrain Htest
              NUM_EPOCHS 0 initial (initial_best_so_far _))
    as (st & Hrun & [Hbound Hbest] & _ & _).
  exists st. split; [exact Hrun |]. cbn [Nat.add] in Hbound, Hbest.
  split; [exact Hbound |].
  destruct (best_model st) as [e0 |].
  - destruct Hbest as (Hlt & Heq & Hpos & Hfirst).
    split; [split |]; [discriminate | | split ].
    + intros Hall. specialize (Hall e0 Hlt). lra.
    + discriminate.
    + intros e1 He1. injection He1 as <-.
      split; [exact Hlt |]. split; [symmetry; exact Heq |].
      split; [exact Hpos | exact Hfirst].
  - split; [split |]; [| reflexivity | split].
    + intros _ e He. rewrite <- Hbest. apply Hbound, He.
    + intros _. exact Hbest.
    + intros e1 He1. discriminate.
Qed.

(** Ten test images in batches of four, epoch [k] getting [k] of them
    wrong: the cell completes. *)
Lemma saved_model_sample :
  exists st,
    train 4 10 sample_outcome = Some st /\
    forall e, (e < NUM_EPOCHS)%nat ->
      test_accuracy 10 sample_outcome e <= best_accuracy st.
Proof.
  destruct (saved_model_is_first_best 4 10 sample_outcome)
    as (st & Hrun & Hbound & _); [discriminate | discriminate |].
  exists st. split; assumption.
Defined.

(** X14.  The two accuracy histories the cell plots have one entry per
    epoch, in the order of the epochs: entry [e] is one minus the error
    count of epoch [e] over the size of the dataset. *)
Theorem accuracy_histories
  (len_train len_test : nat) (outcome : nat -> Epoch) :
  len_train <> 0%nat -> len_test <> 0%nat ->
  exists st,
    train len_train len_test outcome = Some st /\
    accuracy_train st =
      map (train_accuracy len_train outcome) (seq 0 NUM_EPOCHS) /\
    accuracy_test st =
      map (test_accuracy len_test outcome) (seq 0 NUM_EPOCHS) /\
    length (accuracy_train st) = NUM_EPOCHS /\
    length (accuracy_test st) = NUM_EPOCHS.
Proof.
  intros Htrain Htest.
  destruct (train_loop_spec len_train len_test outcome Htrain Htest
              NUM_EPOCHS 0 initial (initial_best_so_far _))
    as (st & Hrun & _ & Htr & Hte).
  exists st. cbn [initial accuracy_train accuracy_test app] in Htr, Hte.
  rewrite Htr, Hte, !length_map, !length_seq. auto.
Qed.

Lemma accuracy_histories_sample :
  exists st,
    train 4 10 sample_outcome = Some st /\
    length (accuracy_test st) = NUM_EPOCHS.
Proof.
  destruct (accuracy_histories 4 10 sample_outcome)
    as (st & Hrun & _ & _ & _ & Hlen); [discriminate | discriminate |].
  exists st. split; assumption.
Defined.

(** The sum [torch.sum] takes over the samples of a batch. *)
Lemma sum_app (l1 l2 : list Z) :
  fold_right Z.add 0%Z (l1 ++ l2) =
  (fold_right Z.add 0%Z l1 + fold_right Z.add 0%Z l2)%Z.
Proof.
  induction l1 as [| z l1 IH]; simpl; [reflexivity | rewrite IH; lia].
Qed.

Lemma error_count_from (loader : list Batch) (count : R) :
  fold_left (fun c b => c + batch_errors b) loader count =
  count
  + IZR (fold_right Z.add 0%Z
           (map (fun s => Z.abs (fst s - snd s)) (samples loader))).
Proof.
  revert count. induction loader as [| b loader IH]; intros count.
  - simpl. lra.
  - cbn [fold_left]. rewrite IH. unfold samples. cbn [concat].
    rewrite map_app, sum_app, plus_IZR. unfold batch_errors. lra.
Qed.

Lemma errors_of_binary (l : list (Z * Z)) :
  (forall s, In s l -> binary s) ->
  fold_right Z.add 0%Z (map (fun s => Z.abs (fst s - snd s)) l) =
  (Z.of_nat (length l) - Z.of_nat (length (filter correct l)))%Z.
Proof.
  induction l as [| s l IH]; intros Hbin.
  - reflexivity.
  - cbn [map fold_right filter length].
    rewrite IH by (intros s' Hs'; apply Hbin; right; exact Hs').
    destruct (Hbin s (or_introl eq_refl)) as [Hl Hp].
    unfold correct. destruct s as [l0 p0]. cbn [fst snd] in *.
    destruct (Z.eqb_spec l0 p0) as [Heq | Hneq];
      cbn [length]; rewrite ?Nat2Z.inj_succ; lia.
Qed.

Lemma filter_length_le {A : Type} (f : A -> bool) (l : list A) :
  (length (filter f l) <= length l)%nat.
Proof.
  induction l as [| a l IH]; simpl; [lia |].
  destruct (f a); simpl; lia.
Qed.

(** X15.  When labels and predictions are the two classes 0 and 1 and the
    test loader yields each of the [len_test] test images once, the test
    accuracy of an epoch is the fraction of the images classified
    correctly, a number between 0 and 1. *)
Theorem test_accuracy_is_fraction_correct
  (len_test : nat) (outcome : nat -> Epoch) (epoch : nat) :
  len_test <> 0%nat ->
  (forall s, In s (samples (test_loader (outcome epoch))) -> binary s) ->
  length (samples (test_loader (outcome epoch))) = len_test ->
  test_accuracy len_test outcome epoch =
    INR (length (filter correct (samples (test_loader (outcome epoch)))))
    / INR len_test /\
  0 <= test_accuracy len_test outcome epoch <= 1.
Proof.
  intros Hne Hbin Hlen.
  set (l := samples (test_loader (outcome epoch))) in *.
  assert (Hpos : 0 < INR len_test).
  { apply lt_0_INR. lia. }
  assert (Hacc : test_accuracy len_test outcome epoch =
                 INR (length (filter correct l)) / INR len_test).
  { unfold test_accuracy, error_count. rewrite error_count_from.
    fold l. rewrite errors_of_binary by exact Hbin.
    rewrite minus_IZR, <- !INR_IZR_INZ, Hlen.
    replace (0.0 + (INR len_test - INR (length (filter correct l))))
      with (INR len_test - INR (length (filter correct l))) by lra.
    unfold Rdiv. rewrite Rmult_minus_distr_r, Rinv_r by lra. lra. }
  split; [exact Hacc |]. rewrite Hacc.
  pose proof (filter_length_le correct l) as Hle. rewrite Hlen in Hle.
  apply le_INR in Hle.
  pose proof (pos_INR (length (filter correct l))) as Hge.
  split.
  - apply Rmult_le_pos; [exact Hge |]. left. apply Rinv_0_lt_compat, Hpos.
  - apply Rmult_le_reg_r with (INR len_test); [exact Hpos |].
    unfold Rdiv. rewrite Rmult_assoc, Rinv_l by lra. lra.
Qed.

(** Epoch 3 of the sample run: three of ten images wrong. *)
Lemma test_accuracy_sample :
  test_accuracy 10 sample_outcome 3 =
    INR (length (filter correct (samples (test_loader (sample_outcome 3)))))
    / INR 10 /\
  0 <= test_accuracy 10 sample_outcome 3 <= 1.
Proof.
  apply (test_accuracy_is_fraction_correct 10 sample_outcome 3).
  - discriminate.
  - intros s Hs. simpl in Hs. unfold binary.
    repeat match goal with
           | H : _ \/ _ |- _ => destruct H as [<- | H]
           | H : False |- _ => destruct H
           end; simpl; auto.
  - reflexivity.
Defined.

End TrainModelFacts.

(** * Preprocessing *)

Module PreprocessFacts.
Import Preprocess.

Lemma rescaled_plane (m s : R) (f : Pixel -> Z) (x : Image) :
  s <> 0 ->
  map (map (fun v => (v - 255.0 * m) / (255.0 * s)))
    (map (map IZR) (map (map f) x)) =
  map (map (fun v => (v - m) / s))
    (map (map (fun v => IZR v / 255)) (map (map f) x)).
Proof.
  intros Hs.
  rewrite !map_map.
  apply map_ext. intros row. rewrite !map_map.
  apply map_ext. intros px. replace 255.0 with 255 by lra.
  field. exact Hs.
Qed.

(** X16.  On every frame the collision preprocessing of the demos (the
    raw 0..255 values normalised with the 255-fold constants) yields
    exactly what the training notebook's [ToTensor] and [Normalize] yield on
    the frame in red-green-blue order; it is the steering preprocessing
    applied to the frame with its first and third channel exchanged. *)
Theorem collision_preprocessing_matches_training (camera_value : Image) :
  preprocess_collision camera_value =
    [training_transform (cvtColor_BGR2RGB camera_value)] /\
  preprocess_collision camera_value =
    preprocess_steering (cvtColor_BGR2RGB camera_value).
Proof.
  assert (Heq : preprocess_collision camera_value =
                preprocess_steering (cvtColor_BGR2RGB camera_value)).
  { unfold preprocess_collision, preprocess_steering, to_tensor, float,
      transpose_2_0_1, mean2, stdev2, mean, std.
    cbn [map normalize].
    rewrite !rescaled_plane by lra. reflexivity. }
  split; [| exact Heq]. rewrite Heq. reflexivity.
Qed.

End PreprocessFacts.
